(** * parallelretriever.py: a shallow embedding and its properties

    The script [tags/1.4/utilities/parallelretriever.py] reads a retrieval
    order (fetch.txt), deals its lines round-robin into [num_processes]
    buckets, forks one child per bucket and lets every child fetch its items
    with rsync or wget, writing one line per attempt to [retrieval.log].

    Python values are modelled as follows: [str] is [string] (a list of
    8-bit characters), [int] is [Z], a tuple or list is a [list], an uncaught
    exception is a value of [exn].  Calls that leave the interpreter
    (the file system, the clock, [fork], [spawnlp]) are answered by an
    environment record of oracles and recorded in a trace of events. *)

From Stdlib Require Import ZArith QArith Qround Lqa Ascii Lia.
From Stdlib Require Import DecimalString DecimalZ.
From stdpp Require Import base list list_numbers strings.

Local Open Scope Z_scope.

(** ** Exceptions and results *)

Inductive exn : Type :=
| ValueError
| ZeroDivisionError
| IndexError
| OSError (errno : nat)
| IOError (errno : nat)
| SystemExit (code : Z).

Inductive result (A : Type) : Type :=
| Ok (a : A)
| Raise (e : exn).
Arguments Ok {A} a.
Arguments Raise {A} e.

Definition rbind {A B} (r : result A) (k : A -> result B) : result B :=
  match r with
  | Ok a => k a
  | Raise e => Raise e
  end.

(** ** Strings: [str.strip], [str.split], [str.startswith] *)

(** The characters Python 2 treats as white space in a byte string:
    space, and \t \n \v \f \r (codes 9 to 13). *)
Definition is_space (c : ascii) : bool :=
  let n := nat_of_ascii c in
  (n =? 32)%nat || ((9 <=? n)%nat && (n <=? 13)%nat).

Fixpoint lstrip (s : string) : string :=
  match s with
  | EmptyString => EmptyString
  | String c s' => if is_space c then lstrip s' else s
  end.

Definition rstrip (s : string) : string :=
  String.rev (lstrip (String.rev s)).

Definition strip (s : string) : string := rstrip (lstrip s).

(** [split_from cur s]: [cur] is the token being read (empty when between
    tokens); runs of white space separate tokens and produce no empty
    token, as [str.split()] without argument does. *)
Fixpoint split_from (cur : string) (s : string) : list string :=
  match s with
  | EmptyString => match cur with EmptyString => [] | _ => [cur] end
  | String c s' =>
      if is_space c
      then match cur with
           | EmptyString => split_from EmptyString s'
           | _ => cur :: split_from EmptyString s'
           end
      else split_from (cur +:+ String c EmptyString) s'
  end.

Definition split (s : string) : list string := split_from EmptyString s.

Definition startswith (s p : string) : bool := String.prefix p s.

(** [tuple(line.strip().split())] *)
Definition retrieval_item_of (line : string) : list string :=
  split (strip line).

(** ** Integers: [%], indexing a tuple *)

(** [a % b] on Python integers: the result has the sign of [b], which is
    [Z.modulo]; a zero divisor raises. *)
Definition py_mod (a b : Z) : result Z :=
  if b =? 0 then Raise ZeroDivisionError else Ok (a mod b).

(** The position a Python index denotes in a sequence of length [len]:
    negative indices count from the end, anything else out of range
    raises [IndexError]. *)
Definition py_index (len : nat) (i : Z) : result nat :=
  if (0 <=? i) && (i <? Z.of_nat len) then Ok (Z.to_nat i)
  else if (- Z.of_nat len <=? i) && (i <? 0) then Ok (Z.to_nat (Z.of_nat len + i))
  else Raise IndexError.

(** [range(n)] has [n] elements, none when [n <= 0]. *)
Definition range_len (n : Z) : nat := Z.to_nat n.

(** ** The bucket partitioner (lines 41 to 47 of the script) *)

(** [retrieval_orders[bucket_number].append(retrieval_item)] *)
Definition bucket_append {A} (retrieval_orders : list (list A))
    (bucket_number : Z) (retrieval_item : A) : result (list (list A)) :=
  rbind (py_index (length retrieval_orders) bucket_number) (fun j =>
  Ok (alter (fun b => b ++ [retrieval_item]) j retrieval_orders)).

(** The body of the [for line in ...readlines()] loop, with the loop state
    [(retrieval_orders, counter)] passed along. *)
Fixpoint distribute_loop (num_processes : Z) (lines : list string)
    (retrieval_orders : list (list (list string))) (counter : Z)
    : result (list (list (list string))) :=
  match lines with
  | [] => Ok retrieval_orders
  | line :: rest =>
      let retrieval_item := retrieval_item_of line in
      rbind (py_mod counter num_processes) (fun bucket_number =>
      rbind (bucket_append retrieval_orders bucket_number retrieval_item)
        (fun retrieval_orders' =>
      distribute_loop num_processes rest retrieval_orders' (counter + 1)))
  end.

(** [tuple([ [] for i in range(num_processes) ])] followed by the loop. *)
Definition distribute (num_processes : Z) (lines : list string)
    : result (list (list (list string))) :=
  distribute_loop num_processes lines
    (replicate (range_len num_processes) []) 0.

(** ** Round-robin interleave of buckets

    Round [r] takes the [r]-th element of every bucket that has one, in
    bucket order; the interleave is the rounds one after the other. *)
Definition round {A} (r : nat) (buckets : list (list A)) : list A :=
  omap (fun b : list A => b !! r) buckets.

Definition interleave {A} (buckets : list (list A)) : list A :=
  flat_map (fun r => round r buckets)
           (seq 0 (max_list (length <$> buckets))).

(** ** Paths: [os.path.join], [os.path.dirname] (posixpath) *)

Definition endswith (s p : string) : bool :=
  String.prefix (String.rev p) (String.rev s).

(** [join(a, b)]: an absolute [b] replaces what came before it. *)
Definition path_join (a b : string) : string :=
  if startswith b "/" then b
  else if String.eqb a "" || endswith a "/" then a +:+ b
  else a +:+ "/" +:+ b.

Definition is_slash (c : ascii) : bool := Ascii.eqb c "/"%char.

Fixpoint all_slashes (s : string) : bool :=
  match s with
  | EmptyString => true
  | String c s' => is_slash c && all_slashes s'
  end.

(** On a reversed path: what is left of it from its first slash on. *)
Fixpoint from_first_slash (s : string) : string :=
  match s with
  | EmptyString => EmptyString
  | String c s' => if is_slash c then s else from_first_slash s'
  end.

Fixpoint lstrip_slashes (s : string) : string :=
  match s with
  | EmptyString => EmptyString
  | String c s' => if is_slash c then lstrip_slashes s' else s
  end.

(** [head = p[:p.rfind('/') + 1]], and trailing slashes are stripped from
    [head] unless it consists of slashes only. *)
Definition dirname (p : string) : string :=
  let rhead := from_first_slash (String.rev p) in
  if all_slashes rhead then String.rev rhead
  else String.rev (lstrip_slashes rhead).

(** ** Decimal rendering: [str(n)] and ["%d" % n] of an integer *)

Definition str_of_int (n : Z) : string :=
  NilZero.string_of_int (Z.to_int n).

(** [int(x)] of a float truncates towards zero; a finite float is a
    rational number. *)
Definition int_of_float (x : Q) : Z := Z.quot (Qnum x) (Zpos (Qden x)).

(** ** Events, environment, and the monad of a process *)

Inductive event : Type :=
| EUsage (msg : string)            (* optparse: usage and message on stderr *)
| EPrint (text : string)           (* print *)
| EMkdir (path : string)           (* os.mkdir *)
| ECopy (src dst : string)         (* shutil.copy *)
| EReadlines (path : string)       (* file(path).readlines() *)
| EOpenLog (path : string)         (* file(path, "w") *)
| EFork (i : nat)                  (* os.fork *)
| EWait (i : nat)                  (* os.wait *)
| EMakedirs (path : string)        (* os.makedirs *)
| ESpawn (file : string) (argv : list string)   (* os.spawnlp(P_WAIT, ..) *)
| ELogWrite (text : string).       (* logfile.write *)

(** A terminated child: what it did and its exit status. *)
Definition process : Type := (list event * Z)%type.

(** What the world answers.  Calls made by a child are identified by the
    child's index and the position of the item in its bucket. *)
Record Env : Type := {
  time_time : Q;
  os_getcwd : string;
  os_path_isdir : string -> bool;
  os_mkdir : string -> option exn;
  shutil_copy : string -> string -> option exn;
  file_readlines : string -> result (list string);
  file_open_w : string -> option exn;
  os_fork : nat -> result positive;
  os_wait : nat -> Z * Z;
  (** [os.makedirs] fails with [OSError]: the oracle gives its errno. *)
  os_makedirs : nat -> nat -> string -> option nat;
  os_spawnlp : nat -> nat -> string -> list string -> Z;
  time_asctime : nat -> nat -> string;
}.

(** A computation of a process yields its events, the children it has
    forked, and a value or an uncaught exception. *)
Definition M (A : Type) : Type := (list event * list process * result A)%type.

Definition ret {A} (a : A) : M A := ([], [], Ok a).

Definition raise {A} (e : exn) : M A := ([], [], Raise e).

Definition bind {A B} (m : M A) (k : A -> M B) : M B :=
  match m with
  | (t, c, Ok a) => let '(t', c', r) := k a in (t ++ t', c ++ c', r)
  | (t, c, Raise e) => (t, c, Raise e)
  end.

Notation "'let*' x ':=' m 'in' k" := (bind m (fun x => k))
  (at level 10, x name, m at level 100, k at level 200).
Notation "m '>>' k" := (bind m (fun _ => k))
  (at level 100, k at level 200, right associativity).

Definition emit (e : event) : M unit := ([e], [], Ok tt).

Definition lift {A} (r : result A) : M A := ([], [], r).

Definition may_raise (o : option exn) : M unit :=
  match o with
  | None => ret tt
  | Some e => raise e
  end.

(** [try: m  except OSError: pass] *)
Definition try_except_OSError (m : M unit) : M unit :=
  match m with
  | (t, c, Raise (OSError _)) => (t, c, Ok tt)
  | _ => m
  end.

Definition events_of {A} (m : M A) : list event := m.1.1.
Definition children_of {A} (m : M A) : list process := m.1.2.
Definition result_of {A} (m : M A) : result A := m.2.

(** The exit status of the interpreter: [sys.exit(c)] gives [c], any other
    uncaught exception gives 1, running off the end of the script 0. *)
Definition exit_status {A} (m : M A) : Z :=
  match result_of m with
  | Ok _ => 0
  | Raise (SystemExit c) => c
  | Raise _ => 1
  end.

Definition run_process (m : M unit) : process := (events_of m, exit_status m).

Definition log_lines (t : list event) : list string :=
  omap (fun e => match e with ELogWrite s => Some s | _ => None end) t.

Definition spawns (t : list event) : list (string * list string) :=
  omap (fun e => match e with ESpawn f a => Some (f, a) | _ => None end) t.

(** ** The worker: lines 56 to 77, run by a child on its bucket *)

Definition unpack2 (t : list string) : result (string * string) :=
  match t with
  | [a; b] => Ok (a, b)
  | _ => Raise ValueError
  end.

Definition unpack3 (t : list string) : result (string * string * string) :=
  match t with
  | [a; b; c] => Ok (a, b, c)
  | _ => Raise ValueError
  end.

(** Lines 60 to 63: the url and the file name of a tuple. *)
Definition url_and_filename (items : list string) : result (string * string) :=
  if (length items =? 2)%nat then unpack2 items
  else rbind (unpack3 items) (fun '(url, filesize, filename) =>
       Ok (url, filename)).

(** Lines 70 to 75: the program and argument vector given to
    [os.spawnlp]. *)
Definition transfer_command (url filename : string) : string * list string :=
  if startswith url "rsync"
  then ("rsync", ["rsync"; "-ar"; url; filename])
  else ("wget", ["wget"; "-q"; "-O"; filename; url]).

Definition makedirs (env : Env) (i j : nat) (path : string) : M unit :=
  emit (EMakedirs path) >>
  match os_makedirs env i j path with
  | None => ret tt
  | Some errno => raise (OSError errno)
  end.

Definition spawnlp (env : Env) (i j : nat) (cmd : string * list string) : M Z :=
  emit (ESpawn cmd.1 cmd.2) >> ret (os_spawnlp env i j cmd.1 cmd.2).

(** ["%s %s %d\n" % (time.asctime(), filename, ret)] *)
Definition log_line (asctime filename : string) (code : Z) : string :=
  asctime +:+ " " +:+ filename +:+ " " +:+ str_of_int code +:+ "
".

(** The body of [for items in retrieval_orders[i]], for the item at
    position [j] of bucket [i]. *)
Definition retrieve_item (env : Env) (package_directory : string)
    (i j : nat) (items : list string) : M unit :=
  let* uf := lift (url_and_filename items) in
  let url := uf.1 in
  let filename := path_join package_directory uf.2 in
  try_except_OSError (makedirs env i j (dirname filename)) >>
  let* code := spawnlp env i j (transfer_command url filename) in
  emit (ELogWrite (log_line (time_asctime env i j) filename code)).

Fixpoint retrieve_items (env : Env) (package_directory : string)
    (i j : nat) (bucket : list (list string)) : M unit :=
  match bucket with
  | [] => ret tt
  | items :: rest =>
      retrieve_item env package_directory i j items >>
      retrieve_items env package_directory i (S j) rest
  end.

Definition working_on (len i : nat) : string :=
  "working on " +:+ str_of_int (Z.of_nat len) +:+ " items in list " +:+
  str_of_int (Z.of_nat i).

Definition worker (env : Env) (package_directory : string) (i : nat)
    (bucket : list (list string)) : M unit :=
  emit (EPrint (working_on (length bucket) i)) >>
  retrieve_items env package_directory i 0 bucket >>
  raise (SystemExit 0).

(** ** The parent: [retrieve_package] and the script body *)

Record Options : Type := {
  num_processes : Z;
  package_identifier : option string;
  file_manifest : option string;
  retrieval_order : option string;
  destination_path : option string;
}.

(** [str(int(time.time()))] *)
Definition generate_package_identifier (env : Env) : string :=
  str_of_int (int_of_float (time_time env)).

(** [parser.error(msg)]: usage and message on stderr, exit status 2. *)
Definition parser_error {A} (msg : string) : M A :=
  emit (EUsage msg) >> raise (SystemExit 2).

(** [os.fork()] seen from the parent, which carries on with the child's
    pid; the child runs [child] and is recorded with what it did. *)
Definition fork (env : Env) (i : nat) (child : M unit) : M positive :=
  emit (EFork i) >>
  match os_fork env i with
  | Ok pid => ([], [run_process child], Ok pid)
  | Raise e => raise e
  end.

(** [retrieval_orders[i]] for an index [i] of [range(num_processes)]. *)
Definition tuple_get {A} (t : list A) (i : nat) : result A :=
  match t !! i with
  | Some x => Ok x
  | None => Raise IndexError
  end.

(** The child's branch of the [if pid] of line 53, for loop index [i]. *)
Definition child (env : Env) (package_directory : string)
    (retrieval_orders : list (list (list string))) (i : nat) : M unit :=
  let* bucket := lift (tuple_get retrieval_orders i) in
  worker env package_directory i bucket.

(** Lines 51 to 77, for the values [indices] of the loop variable that are
    still to come. *)
Fixpoint fork_loop (env : Env) (package_directory : string)
    (retrieval_orders : list (list (list string))) (indices : list nat)
    (pids : list positive) : M (list positive) :=
  match indices with
  | [] => ret pids
  | i :: rest =>
      let* pid := fork env i (child env package_directory retrieval_orders i) in
      fork_loop env package_directory retrieval_orders rest (pids ++ [pid])
  end.

Definition finished_with (pid exit_status : Z) : string :=
  str_of_int pid +:+ " finished with status " +:+ str_of_int exit_status.

(** Lines 79 to 81. *)
Fixpoint wait_loop (env : Env) (i count : nat) : M unit :=
  match count with
  | O => ret tt
  | S count' =>
      emit (EWait i) >>
      let ps := os_wait env i in
      emit (EPrint (finished_with ps.1 ps.2)) >>
      wait_loop env (S i) count'
  end.

Definition retrieve_package (env : Env) (num_processes : Z)
    (package_identifier file_manifest retrieval_order destination_path
       : string) : M unit :=
  let package_directory := path_join destination_path package_identifier in
  (if os_path_isdir env package_directory then ret tt
   else emit (EMkdir package_directory) >>
        may_raise (os_mkdir env package_directory)) >>
  emit (ECopy file_manifest package_directory) >>
  may_raise (shutil_copy env file_manifest package_directory) >>
  emit (ECopy retrieval_order package_directory) >>
  may_raise (shutil_copy env retrieval_order package_directory) >>
  emit (EReadlines retrieval_order) >>
  let* lines := lift (file_readlines env retrieval_order) in
  let* retrieval_orders := lift (distribute num_processes lines) in
  let logfile := path_join package_directory "retrieval.log" in
  emit (EOpenLog logfile) >>
  may_raise (file_open_w env logfile) >>
  let* pids := fork_loop env package_directory retrieval_orders
                 (seq 0 (range_len num_processes)) [] in
  wait_loop env 0 (range_len num_processes).

(** The body under [if __name__ == '__main__'], after [parse_args]. *)
Definition main (env : Env) (options : Options) : M unit :=
  match file_manifest options with
  | None => parser_error "Supply a file manifest with -m."
  | Some manifest =>
  match retrieval_order options with
  | None => parser_error "Supply a retrieval order with -r."
  | Some order =>
      let identifier :=
        match package_identifier options with
        | None => generate_package_identifier env
        | Some s => s
        end in
      let destination :=
        match destination_path options with
        | None => os_getcwd env
        | Some s => s
        end in
      retrieve_package env (num_processes options) identifier manifest order
        destination
  end end.

(** ** Vocabulary of the statements *)

(** [dealt N items bs]: the [N] buckets [bs] hold [items] dealt round
    robin, bucket [j] holding the items at positions [j], [N + j],
    [2 N + j], ... in this order. *)
Definition dealt {A} (N : nat) (items : list A) (bs : list (list A)) : Prop :=
  length bs = N /\
  (forall j b, bs !! j = Some b ->
     forall r, b !! r = items !! (r * N + j)%nat) /\
  sum_list (length <$> bs) = length items.

(** A tuple the worker can unpack: url and file name, or url, size and
    file name. *)
Definition well_formed (items : list string) : Prop :=
  length items = 2%nat \/ length items = 3%nat.

Definition item_url (items : list string) : string := List.hd "" items.

Definition item_filename (items : list string) : string := List.last items "".

(** What the worker does for the well-formed tuple at position [j] of
    bucket [i]. *)
Definition item_command (package_directory : string) (items : list string)
    : string * list string :=
  transfer_command (item_url items)
    (path_join package_directory (item_filename items)).

Definition item_log (env : Env) (package_directory : string) (i j : nat)
    (items : list string) : string :=
  let cmd := item_command package_directory items in
  log_line (time_asctime env i j)
    (path_join package_directory (item_filename items))
    (os_spawnlp env i j cmd.1 cmd.2).

Definition item_events (env : Env) (package_directory : string) (i j : nat)
    (items : list string) : list event :=
  let cmd := item_command package_directory items in
  [EMakedirs (dirname (path_join package_directory (item_filename items)));
   ESpawn cmd.1 cmd.2;
   ELogWrite (item_log env package_directory i j items)].

(** The events of the well-formed items of a bucket, the first of them at
    position [j]. *)
Definition bucket_events (env : Env) (package_directory : string)
    (i j : nat) (bucket : list (list string)) : list event :=
  concat (imap (fun k => item_events env package_directory i (j + k)) bucket).

(** A line of white space only. *)
Fixpoint blank (s : string) : bool :=
  match s with
  | EmptyString => true
  | String c s' => is_space c && blank s'
  end.

(** The scheme of a URL: what stands before its first colon. *)
Fixpoint url_scheme (url : string) : string :=
  match url with
  | EmptyString => EmptyString
  | String c rest =>
      if Ascii.eqb c ":"%char then EmptyString else String c (url_scheme rest)
  end.

(** [path] names something below the directory [dir]. *)
Definition inside_directory (dir path : string) : bool :=
  String.prefix (dir +:+ "/") path.

Definition is_digit (c : ascii) : bool :=
  let n := nat_of_ascii c in (48 <=? n)%nat && (n <=? 57)%nat.

(** A non-empty string of decimal digits. *)
Fixpoint all_digits (s : string) : bool :=
  match s with
  | EmptyString => true
  | String c s' => is_digit c && all_digits s'
  end.

Definition pure_decimal (s : string) : Prop :=
  s <> "" /\ all_digits s = true.

Definition waits (t : list event) : list nat :=
  omap (fun e => match e with EWait i => Some i | _ => None end) t.

(** The package directory the script works in. *)
Definition package_directory_of (env : Env) (options : Options) : string :=
  path_join
    (match destination_path options with
     | None => os_getcwd env
     | Some s => s
     end)
    (match package_identifier options with
     | None => generate_package_identifier env
     | Some s => s
     end).

(** The parent's own calls to the file system and to [fork] succeed. *)
Definition parent_calls_succeed (env : Env) (options : Options)
    (manifest order : string) : Prop :=
  let dir := package_directory_of env options in
  (os_path_isdir env dir = false -> os_mkdir env dir = None) /\
  shutil_copy env manifest dir = None /\
  shutil_copy env order dir = None /\
  (exists lines, file_readlines env order = Ok lines) /\
  file_open_w env (path_join dir "retrieval.log") = None /\
  (forall i, exists pid, os_fork env i = Ok pid).

(** ** Sample runs

    An environment in which the retrieval order has the given [lines],
    every transfer exits with [code], every [os.makedirs] answers [dirs]
    and the parent's own calls succeed. *)
Definition sample_env (lines : list string) (code : Z) (dirs : option nat)
    : Env := {|
  time_time := 1262304000 # 1;
  os_getcwd := "/srv/bags";
  os_path_isdir := fun _ => false;
  os_mkdir := fun _ => None;
  shutil_copy := fun _ _ => None;
  file_readlines := fun _ => Ok lines;
  file_open_w := fun _ => None;
  os_fork := fun i => Ok (Pos.of_succ_nat i);
  os_wait := fun i => (Z.of_nat (S i), 0);
  os_makedirs := fun _ _ _ => dirs;
  os_spawnlp := fun _ _ _ _ => code;
  time_asctime := fun _ _ => "Fri Jan  1 00:00:00 2010";
|}.

(** The same environment with the clock reading [t]. *)
Definition at_time (t : Q) (env : Env) : Env := {|
  time_time := t;
  os_getcwd := os_getcwd env;
  os_path_isdir := os_path_isdir env;
  os_mkdir := os_mkdir env;
  shutil_copy := shutil_copy env;
  file_readlines := file_readlines env;
  file_open_w := file_open_w env;
  os_fork := os_fork env;
  os_wait := os_wait env;
  os_makedirs := os_makedirs env;
  os_spawnlp := os_spawnlp env;
  time_asctime := time_asctime env;
|}.

(** The same environment in which [shutil.copy] finds no file to copy. *)
Definition without_files (env : Env) : Env := {|
  time_time := time_time env;
  os_getcwd := os_getcwd env;
  os_path_isdir := os_path_isdir env;
  os_mkdir := os_mkdir env;
  shutil_copy := fun _ _ => Some (IOError 2);
  file_readlines := file_readlines env;
  file_open_w := file_open_w env;
  os_fork := os_fork env;
  os_wait := os_wait env;
  os_makedirs := os_makedirs env;
  os_spawnlp := os_spawnlp env;
  time_asctime := time_asctime env;
|}.

Definition sample_options (n : Z) : Options := {|
  num_processes := n;
  package_identifier := Some "bag1";
  file_manifest := Some "manifest-md5.txt";
  retrieval_order := Some "fetch.txt";
  destination_path := Some "/srv/bags";
|}.

(** ** Further vocabulary *)

Fixpoint has_space (s : string) : bool :=
  match s with
  | EmptyString => false
  | String c s' => is_space c || has_space s'
  end.

Fixpoint has_slash (s : string) : bool :=
  match s with
  | EmptyString => false
  | String c s' => is_slash c || has_slash s'
  end.

(** The events of the script outside the child's branch, and those of the
    child's branch. *)
Definition is_parent_event (e : event) : bool :=
  match e with
  | EUsage _ | EPrint _ | EMkdir _ | ECopy _ _ | EReadlines _ | EOpenLog _
  | EFork _ | EWait _ => true
  | EMakedirs _ | ESpawn _ _ | ELogWrite _ => false
  end.

Definition is_worker_event (e : event) : bool :=
  match e with
  | EPrint _ | EMakedirs _ | ESpawn _ _ | ELogWrite _ => true
  | _ => false
  end.

(** Everything the parent does before the fork loop succeeds: the package
    directory is there or is made, both files are copied, the retrieval
    order is read as [lines] and dealt into [buckets], the log is opened. *)
Definition setup_succeeds (env : Env) (options : Options)
    (manifest order : string) (lines : list string)
    (buckets : list (list (list string))) : Prop :=
  let dir := package_directory_of env options in
  file_manifest options = Some manifest /\
  retrieval_order options = Some order /\
  (os_path_isdir env dir = false -> os_mkdir env dir = None) /\
  shutil_copy env manifest dir = None /\
  shutil_copy env order dir = None /\
  file_readlines env order = Ok lines /\
  distribute (num_processes options) lines = Ok buckets /\
  file_open_w env (path_join dir "retrieval.log") = None.

(** The same environment in which the [i]-th [fork] fails with
    [OSError(errno)]. *)
Definition fork_failing_at (i errno : nat) (env : Env) : Env := {|
  time_time := time_time env;
  os_getcwd := os_getcwd env;
  os_path_isdir := os_path_isdir env;
  os_mkdir := os_mkdir env;
  shutil_copy := shutil_copy env;
  file_readlines := file_readlines env;
  file_open_w := file_open_w env;
  os_fork := fun j => if (j =? i)%nat then Raise (OSError errno)
                      else os_fork env j;
  os_wait := os_wait env;
  os_makedirs := os_makedirs env;
  os_spawnlp := os_spawnlp env;
  time_asctime := time_asctime env;
|}.

(** A token: not empty and without white space.  A separator: white
    space, at least one character of it. *)
Definition token (t : string) : Prop := t <> "" /\ has_space t = false.

Definition separator (ws : string) : Prop := ws <> "" /\ blank ws = true.

(** What the parent does before the fork loop when everything succeeds,
    and what its wait loop does for the given indices. *)
Definition setup_events (env : Env) (options : Options)
    (manifest order : string) : list event :=
  let dir := package_directory_of env options in
  (if os_path_isdir env dir then [] else [EMkdir dir]) ++
  [ECopy manifest dir; ECopy order dir; EReadlines order;
   EOpenLog (path_join dir "retrieval.log")].

Definition wait_events (env : Env) (indices : list nat) : list event :=
  flat_map (fun i => [EWait i;
                      EPrint (finished_with (os_wait env i).1
                                            (os_wait env i).2)]) indices.

(** The log files a trace opens and the indices it forks for. *)
Definition opens_log (t : list event) : list string :=
  omap (fun e => match e with EOpenLog path => Some path | _ => None end) t.

Definition forks (t : list event) : list nat :=
  omap (fun e => match e with EFork i => Some i | _ => None end) t.

Fixpoint has_colon (s : string) : bool :=
  match s with
  | EmptyString => false
  | String c s' => Ascii.eqb c ":"%char || has_colon s'
  end.

(** * Properties of the partitioner *)

Section Partitioner.

Lemma py_mod_of_nat (n : Z) (k : nat) :
  1 <= n -> py_mod (Z.of_nat k) n = Ok (Z.of_nat (k mod Z.to_nat n)).
Proof.
  intros Hn. unfold py_mod.
  destruct (Z.eqb_spec n 0) as [->|_]; [lia|].
  f_equal. rewrite Nat2Z.inj_mod. rewrite Z2Nat.id by lia. reflexivity.
Qed.

Lemma py_index_of_nat (len j : nat) :
  (j < len)%nat -> py_index len (Z.of_nat j) = Ok j.
Proof.
  intros Hj. unfold py_index.
  replace (0 <=? Z.of_nat j) with true by (symmetry; apply Z.leb_le; lia).
  replace (Z.of_nat j <? Z.of_nat len) with true
    by (symmetry; apply Z.ltb_lt; lia).
  simpl. by rewrite Nat2Z.id.
Qed.

Lemma distribute_loop_app n l1 l2 bs c :
  distribute_loop n (l1 ++ l2) bs c =
  rbind (distribute_loop n l1 bs c)
        (fun bs' => distribute_loop n l2 bs' (c + Z.of_nat (length l1))).
Proof.
  revert bs c. induction l1 as [|x l1 IH]; intros bs c.
  - simpl. by rewrite Z.add_0_r.
  - replace (c + Z.of_nat (length (x :: l1)))
      with (c + 1 + Z.of_nat (length l1)) by (cbn [length]; lia).
    cbn [app distribute_loop].
    destruct (py_mod c n) as [bn|e]; [|done]. cbn [rbind].
    destruct (bucket_append bs bn (retrieval_item_of x)) as [bs'|e]; [|done].
    cbn [rbind]. apply IH.
Qed.

Lemma sum_list_length_alter {A} (x : A) (bs : list (list A)) (i : nat) :
  (i < length bs)%nat ->
  sum_list (length <$> alter (fun b => b ++ [x]) i bs) =
  S (sum_list (length <$> bs)).
Proof.
  revert i. induction bs as [|b bs IH]; intros i Hi; simpl in Hi; [lia|].
  destruct i as [|i].
  - simpl. rewrite length_app. simpl. lia.
  - specialize (IH i ltac:(lia)). unfold alter, fmap in *. simpl in *. lia.
Qed.

Lemma dealt_nil {A} (N : nat) : dealt N (@nil A) (replicate N []).
Proof.
  split; [apply length_replicate|]. split.
  - intros j b [-> _]%lookup_replicate r. by rewrite !lookup_nil.
  - rewrite fmap_replicate, sum_list_replicate. simpl. lia.
Qed.

Lemma dealt_bucket_full {A} N (items : list A) bs j b :
  dealt N items bs -> bs !! j = Some b ->
  (j < N /\ length items <= length b * N + j /\
   (0 < length b -> (length b - 1) * N + j < length items))%nat.
Proof.
  intros (Hlen & Hlook & _) Hj.
  split; [apply lookup_lt_Some in Hj; lia|]. split.
  - pose proof (Hlook j b Hj (length b)) as H.
    rewrite (lookup_ge_None_2 b (length b)) in H by lia.
    symmetry in H. by apply lookup_ge_None in H.
  - intros Hpos. pose proof (Hlook j b Hj (length b - 1)%nat) as H.
    destruct (lookup_lt_is_Some_2 b (length b - 1)%nat) as [y Hy]; [lia|].
    rewrite Hy in H. symmetry in H. by apply lookup_lt_Some in H.
Qed.

Lemma dealt_snoc {A} N (items : list A) bs x :
  (0 < N)%nat -> dealt N items bs ->
  dealt N (items ++ [x])
        (alter (fun b => b ++ [x]) (length items mod N)%nat bs).
Proof.
  intros HN Hd. pose proof Hd as (Hlen & Hlook & Hsum).
  assert (Hm : ((length items mod N) < N)%nat) by (apply Nat.mod_upper_bound; lia).
  pose proof (Nat.div_mod_eq (length items) N) as Hk.
  split; [by rewrite length_alter|]. split.
  - intros j b Hj r.
    destruct (decide (j = (length items mod N)%nat)) as [->|Hne].
    + rewrite list_lookup_alter_eq in Hj.
      destruct (bs !! (length items mod N)%nat) as [b0|] eqn:Hb0;
        [|simpl in Hj; discriminate].
      simpl in Hj. injection Hj as <-.
      pose proof (dealt_bucket_full _ _ _ _ _ Hd Hb0) as (_ & Hge & Hlt).
      assert (Hfull : (length b0 * N + length items mod N = length items)%nat).
      { clear -HN Hk Hm Hge Hlt.
        set (m := (length items mod N)%nat) in *.
        set (q := (length items / N)%nat) in *. clearbody m q.
        revert Hk Hm Hge Hlt. generalize (length items) (length b0).
        intros k L Hk Hm Hge Hlt.
        destruct L as [|L]; [lia|]. specialize (Hlt ltac:(lia)).
        replace (S L - 1)%nat with L in Hlt by lia.
        assert (q = S L).
        { destruct (Nat.lt_trichotomy q (S L)) as [?|[?|?]]; [|done|].
          - nia.
          - nia. }
        subst q. lia. }
      destruct (Nat.lt_trichotomy r (length b0)) as [Hr|[->|Hr]].
      * rewrite lookup_app_l by done. rewrite lookup_app_l by nia.
        by apply Hlook.
      * rewrite Hfull. by rewrite !list_lookup_middle.
      * rewrite !lookup_ge_None_2; [done|..];
          rewrite length_app; simpl; nia.
    + rewrite list_lookup_alter_ne in Hj by done.
      pose proof (dealt_bucket_full _ _ _ _ _ Hd Hj) as (HjN & _ & _).
      rewrite (Hlook j b Hj r).
      destruct (Nat.lt_trichotomy (r * N + j) (length items)) as [Hr|[Hr|Hr]].
      * by rewrite lookup_app_l.
      * exfalso. apply Hne. rewrite <- Hr.
        rewrite (Nat.add_comm (r * N) j), Nat.Div0.mod_add.
        by rewrite Nat.mod_small.
      * rewrite !lookup_ge_None_2; [done|..];
          rewrite ?length_app; simpl; lia.
  - rewrite sum_list_length_alter by lia. rewrite length_app. simpl. lia.
Qed.

(** The loop of the script deals the tuples of the lines. *)
Lemma distribute_dealt (n : Z) (lines : list string) :
  1 <= n ->
  exists bs, distribute n lines = Ok bs /\
             dealt (Z.to_nat n) (retrieval_item_of <$> lines) bs.
Proof.
  intros Hn. unfold distribute, range_len.
  induction lines as [|line lines IH] using rev_ind.
  - eexists; split; [reflexivity|]. apply dealt_nil.
  - destruct IH as (bs & Hrun & Hd).
    rewrite distribute_loop_app, Hrun. cbn [rbind distribute_loop].
    rewrite Z.add_0_l, py_mod_of_nat by done. cbn [rbind].
    unfold bucket_append. pose proof Hd as (Hlen & _ & _).
    rewrite py_index_of_nat
      by (rewrite Hlen; apply Nat.mod_upper_bound; lia).
    cbn [rbind]. eexists; split; [reflexivity|].
    rewrite fmap_app. cbn [fmap list_fmap].
    rewrite <- (length_fmap retrieval_item_of lines).
    apply dealt_snoc; [lia|done].
Qed.

Lemma dealt_position {A} N (items : list A) bs i x :
  (0 < N)%nat -> dealt N items bs -> items !! i = Some x ->
  exists b, bs !! (i mod N)%nat = Some b /\ b !! (i / N)%nat = Some x.
Proof.
  intros HN (Hlen & Hlook & _) Hi.
  destruct (lookup_lt_is_Some_2 bs (i mod N)%nat) as [b Hb].
  { rewrite Hlen. apply Nat.mod_upper_bound. lia. }
  exists b. split; [done|]. rewrite (Hlook _ _ Hb).
  replace (i / N * N + i mod N)%nat with i; [done|].
  pose proof (Nat.div_mod_eq i N). lia.
Qed.

Lemma dealt_size {A} N (items : list A) bs j b :
  (0 < N)%nat -> dealt N items bs -> bs !! j = Some b ->
  length b = (length items / N)%nat \/
  length b = ((length items + N - 1) / N)%nat.
Proof.
  intros HN Hd Hj.
  pose proof (dealt_bucket_full _ _ _ _ _ Hd Hj) as (HjN & Hge & Hlt).
  revert Hge Hlt. generalize (length items) (length b). intros k L Hge Hlt.
  assert (Hlo : (k / N <= L)%nat).
  { apply Nat.lt_succ_r. apply Nat.Div0.div_lt_upper_bound. nia. }
  assert (Hhi : (L <= (k + N - 1) / N)%nat).
  { destruct L as [|L]; [lia|]. specialize (Hlt ltac:(lia)).
    replace (S L - 1)%nat with L in Hlt by lia.
    apply Nat.div_le_lower_bound; [lia|]. nia. }
  assert (Hgap : ((k + N - 1) / N <= k / N + 1)%nat).
  { apply Nat.lt_succ_r. apply Nat.Div0.div_lt_upper_bound.
    pose proof (Nat.div_mod_eq k N).
    pose proof (Nat.mod_upper_bound k N ltac:(lia)). nia. }
  lia.
Qed.

Lemma omap_lookup_seq {A} (l : list A) (s n : nat) :
  omap (fun j => l !! (s + j)%nat) (seq 0 n) = take n (drop s l).
Proof.
  induction n as [|n IH]; [done|].
  rewrite seq_S, omap_app, IH. simpl.
  destruct (l !! (s + n)%nat) as [x|] eqn:Hx.
  - symmetry. apply take_S_r. by rewrite lookup_drop.
  - rewrite app_nil_r. apply lookup_ge_None in Hx.
    rewrite !take_ge; [done|..]; rewrite length_drop; lia.
Qed.

Lemma omap_pointwise_seq {A B} (g : B -> option A) (f : nat -> option A)
    (bs : list B) (s : nat) :
  (forall j b, bs !! j = Some b -> g b = f (s + j)%nat) ->
  omap g bs = omap f (seq s (length bs)).
Proof.
  revert s. induction bs as [|b bs IH]; intros s H; [done|].
  csimpl. rewrite (H 0%nat b eq_refl), Nat.add_0_r.
  rewrite (IH (S s)); [done|].
  intros j b' Hj. rewrite (H (S j) b' Hj). f_equal. lia.
Qed.

Lemma dealt_round {A} N (items : list A) bs r :
  dealt N items bs -> round r bs = take N (drop (r * N) items).
Proof.
  intros (Hlen & Hlook & _). unfold round.
  rewrite (omap_pointwise_seq _ (fun j => items !! (r * N + j)%nat) bs 0).
  - rewrite Hlen. apply omap_lookup_seq.
  - intros j b Hj. by apply Hlook.
Qed.

Lemma flat_map_rounds {A} N (items : list A) R :
  flat_map (fun r => take N (drop (r * N) items)) (seq 0 R) =
  take (R * N) items.
Proof.
  induction R as [|R IH]; [done|].
  rewrite seq_S, flat_map_app, IH. simpl. rewrite app_nil_r.
  rewrite take_take_drop. f_equal. lia.
Qed.

Lemma dealt_interleave {A} N (items : list A) bs :
  (0 < N)%nat -> dealt N items bs -> interleave bs = items.
Proof.
  intros HN Hd. unfold interleave.
  rewrite (flat_map_ext _ (fun r => take N (drop (r * N) items)))
    by (intros r; by apply dealt_round).
  rewrite flat_map_rounds. apply take_ge.
  pose proof Hd as (Hlen & _ & _).
  destruct (lookup_lt_is_Some_2 bs 0) as [b Hb]; [lia|].
  pose proof (dealt_bucket_full _ _ _ _ _ Hd Hb) as (_ & Hge & _).
  assert (length b <= max_list (length <$> bs))%nat.
  { apply max_list_elem_of_le, list_elem_of_fmap.
    exists b. split; [done|]. by eapply list_elem_of_lookup_2. }
  nia.
Qed.

End Partitioner.

(** * Properties of the worker *)

Section Worker.

Variable env : Env.
Variable package_directory : string.

Lemma url_and_filename_wf items :
  well_formed items ->
  url_and_filename items = Ok (item_url items, item_filename items).
Proof.
  destruct items as [|a [|b [|c [|d l]]]];
    intros [H|H]; simpl in H; try discriminate; reflexivity.
Qed.

Lemma url_and_filename_malformed items :
  ~ well_formed items -> url_and_filename items = Raise ValueError.
Proof.
  unfold well_formed.
  destruct items as [|a [|b [|c [|d l]]]]; simpl; intros H;
    try reflexivity; exfalso; apply H; auto.
Qed.

Lemma retrieve_item_wf i j items :
  well_formed items ->
  retrieve_item env package_directory i j items =
  (item_events env package_directory i j items, [], Ok tt).
Proof.
  intros Hwf. unfold retrieve_item.
  rewrite (url_and_filename_wf _ Hwf).
  unfold item_events, item_log, item_command, makedirs, spawnlp. simpl.
  destruct (os_makedirs env i j _); reflexivity.
Qed.

Lemma retrieve_item_malformed i j items :
  ~ well_formed items ->
  retrieve_item env package_directory i j items = ([], [], Raise ValueError).
Proof.
  intros Hwf. unfold retrieve_item.
  by rewrite (url_and_filename_malformed _ Hwf).
Qed.

Lemma bucket_events_cons i j items bucket :
  bucket_events env package_directory i j (items :: bucket) =
  item_events env package_directory i j items ++
  bucket_events env package_directory i (S j) bucket.
Proof.
  unfold bucket_events. rewrite imap_cons, concat_cons, Nat.add_0_r.
  do 2 f_equal. apply imap_ext.
  intros k x _. simpl. f_equal. lia.
Qed.

Lemma retrieve_items_wf i j bucket :
  Forall well_formed bucket ->
  retrieve_items env package_directory i j bucket =
  (bucket_events env package_directory i j bucket, [], Ok tt).
Proof.
  intros Hwf. revert j. induction Hwf as [|items bucket Hw _ IH]; intros j.
  - reflexivity.
  - rewrite bucket_events_cons. cbn [retrieve_items].
    rewrite (retrieve_item_wf _ _ _ Hw), IH. reflexivity.
Qed.

Lemma retrieve_items_malformed i j pre bad post :
  Forall well_formed pre -> ~ well_formed bad ->
  retrieve_items env package_directory i j (pre ++ bad :: post) =
  (bucket_events env package_directory i j pre, [], Raise ValueError).
Proof.
  intros Hwf Hbad. revert j. induction Hwf as [|items pre Hw _ IH]; intros j.
  - cbn [app retrieve_items].
    by rewrite (retrieve_item_malformed _ _ _ Hbad).
  - rewrite bucket_events_cons. cbn [app retrieve_items].
    rewrite (retrieve_item_wf _ _ _ Hw), IH. reflexivity.
Qed.

Lemma log_lines_bucket_events i j bucket :
  log_lines (bucket_events env package_directory i j bucket) =
  imap (fun k => item_log env package_directory i (j + k)) bucket.
Proof.
  revert j. induction bucket as [|items bucket IH]; intros j; [done|].
  rewrite bucket_events_cons, imap_cons. unfold log_lines in *.
  rewrite omap_app, IH. cbn. rewrite Nat.add_0_r. f_equal.
  apply imap_ext. intros k x _. simpl. f_equal. lia.
Qed.

Lemma spawns_bucket_events i j bucket :
  spawns (bucket_events env package_directory i j bucket) =
  (fun items => item_command package_directory items) <$> bucket.
Proof.
  revert j. induction bucket as [|items bucket IH]; intros j; [done|].
  rewrite bucket_events_cons. unfold spawns in *.
  rewrite omap_app, IH. cbn.
  by destruct (item_command package_directory items).
Qed.

End Worker.

(** * Properties of the line parser *)

Lemma lstrip_blank (s : string) : blank s = true -> lstrip s = "".
Proof.
  induction s as [|c s IH]; [done|]. simpl.
  destruct (is_space c); [|done]. apply IH.
Qed.

Lemma retrieval_item_of_blank (line : string) :
  blank line = true -> retrieval_item_of line = [].
Proof.
  intros H. unfold retrieval_item_of, strip. by rewrite (lstrip_blank _ H).
Qed.

(** * Properties of the parent *)

Section Parent.

Variable env : Env.
Variable package_directory : string.
Variable retrieval_orders : list (list (list string)).

Hypothesis fork_succeeds : forall i, exists pid, os_fork env i = Ok pid.

(** When no [fork] fails, the fork loop starts one child per index, in
    order, and ends normally. *)
Lemma fork_loop_ok indices pids :
  exists pids',
    fork_loop env package_directory retrieval_orders indices pids =
    (EFork <$> indices,
     (fun i => run_process (child env package_directory retrieval_orders i))
       <$> indices,
     Ok pids').
Proof.
  revert pids. induction indices as [|i indices IH]; intros pids.
  - by exists pids.
  - destruct (fork_succeeds i) as [pid Hpid].
    destruct (IH (pids ++ [pid])) as [pids' Hrest].
    exists pids'. cbn [fork_loop]. unfold fork. rewrite Hpid.
    cbn -[child run_process]. by rewrite Hrest.
Qed.

Lemma wait_loop_ok i count :
  exists t, wait_loop env i count = (t, [], Ok tt) /\ waits t = seq i count.
Proof.
  revert i. induction count as [|count IH]; intros i.
  - by exists [].
  - destruct (IH (S i)) as (t & Hrun & Hwaits).
    exists (EWait i ::
            EPrint (finished_with (os_wait env i).1 (os_wait env i).2) :: t).
    split.
    + cbn [wait_loop]. by rewrite Hrun.
    + unfold waits in *. cbn. by rewrite Hwaits.
Qed.

End Parent.

(** A run in which the parent's own calls succeed and the number of
    processes is positive: the parent forks one worker per bucket, waits
    once per worker and runs off the end of the script. *)
Lemma retrieve_package_ok (env : Env) (n : Z)
    (identifier manifest order destination : string) :
  let dir := path_join destination identifier in
  1 <= n ->
  (os_path_isdir env dir = false -> os_mkdir env dir = None) ->
  shutil_copy env manifest dir = None ->
  shutil_copy env order dir = None ->
  (exists lines, file_readlines env order = Ok lines) ->
  file_open_w env (path_join dir "retrieval.log") = None ->
  (forall i, exists pid, os_fork env i = Ok pid) ->
  let run := retrieve_package env n identifier manifest order destination in
  result_of run = Ok tt /\
  waits (events_of run) = seq 0 (Z.to_nat n) /\
  length (children_of run) = Z.to_nat n.
Proof.
  intros dir Hn Hmk Hc1 Hc2 [lines Hread] Hopen Hfork run.
  destruct (distribute_dealt n lines Hn) as (bs & Hdist & Hlen & _).
  destruct (fork_loop_ok env dir bs Hfork (seq 0 (range_len n)) [])
    as [pids Hforks].
  destruct (wait_loop_ok env 0 (range_len n)) as (t & Hwait & Hwaits).
  assert (Hfirst : exists t0,
    (if os_path_isdir env dir then ret tt
     else emit (EMkdir dir) >> may_raise (os_mkdir env dir)) = (t0, [], Ok tt)
    /\ waits t0 = []).
  { destruct (os_path_isdir env dir); [by exists []|].
    rewrite Hmk by done. by eexists. }
  destruct Hfirst as (t0 & Hfirst & Hw0).
  unfold run, retrieve_package. fold dir.
  rewrite Hfirst, Hc1, Hc2, Hread, Hopen. cbn. rewrite Hdist. cbn.
  rewrite Hforks, Hwait. cbn.
  split; [done|]. split.
  - unfold waits in *. rewrite !omap_app, Hw0. cbn.
    rewrite omap_app, Hwaits.
    assert (Hnone : forall l : list nat,
      omap (fun e => match e with EWait i => Some i | _ => None end)
           (EFork <$> l) = []).
    { induction l; [done|]. done. }
    by rewrite Hnone.
  - rewrite !length_app, length_fmap, length_seq. simpl.
    unfold range_len. lia.
Qed.

(** * Properties of the generated identifier *)

Lemma int_of_float_nonneg (t : Q) :
  (0 <= t)%Q -> int_of_float t = Qfloor t /\ 0 <= Qfloor t.
Proof.
  destruct t as [a b]. unfold Qle, int_of_float, Qfloor. simpl.
  intros H. rewrite Z.quot_div_nonneg by lia.
  split; [done|]. apply Z.div_pos; lia.
Qed.

Lemma all_digits_of_uint (d : Decimal.uint) :
  all_digits (NilEmpty.string_of_uint d) = true.
Proof. induction d; simpl; auto. Qed.

Lemma str_of_int_pure_decimal (z : Z) : 0 <= z -> pure_decimal (str_of_int z).
Proof.
  intros Hz. unfold str_of_int. destruct z as [|p|p]; [done| |lia].
  cbn [Z.to_int NilZero.string_of_int].
  pose proof (DecimalPos.Unsigned.to_uint_nonnil p) as Hnil.
  pose proof (all_digits_of_uint (Pos.to_uint p)) as Hdigits.
  destruct (Pos.to_uint p); [done|split; [done|exact Hdigits]..].
Qed.

Lemma int_of_string_str_of_int (z : Z) :
  NilZero.int_of_string (str_of_int z) = Some (Z.to_int z).
Proof.
  unfold str_of_int. apply NilZero.isi; destruct z as [|p|p]; simpl;
    try discriminate; intros [= H];
    by apply (DecimalPos.Unsigned.to_uint_nonnil p).
Qed.

Lemma str_of_int_inj (a b : Z) : str_of_int a = str_of_int b -> a = b.
Proof.
  intros H. apply DecimalZ.to_int_inj.
  pose proof (int_of_string_str_of_int a) as Ha.
  rewrite H, int_of_string_str_of_int in Ha. by injection Ha.
Qed.

Lemma Qfloor_more_than_a_second (t1 t2 : Q) :
  (t1 + 1 < t2)%Q -> Qfloor t1 < Qfloor t2.
Proof.
  intros H. rewrite Zlt_Qlt.
  pose proof (Qfloor_le t1) as H1. pose proof (Qlt_floor t2) as H2.
  rewrite inject_Z_plus in H2. change (inject_Z 1) with 1%Q in H2. lra.
Qed.

(** * The claims *)

(** C1.  For every list of lines (an item list of length [k]) and every
    number of processes [n >= 1], the loop of lines 41 to 47 succeeds with
    exactly [n] buckets; the item at 0-indexed position [i] is in bucket
    [i mod n] (at position [i / n] there); the bucket sizes sum to [k];
    every bucket has [floor(k/n)] or [ceil(k/n)] items; and the round-robin
    interleave of the buckets is the original item list. *)
Theorem partition_round_robin (n : Z) (lines : list string) :
  1 <= n ->
  let items := retrieval_item_of <$> lines in
  let N := Z.to_nat n in
  exists bs,
    distribute n lines = Ok bs /\
    length bs = N /\
    (forall i x, items !! i = Some x ->
       exists b, bs !! (i mod N)%nat = Some b /\ b !! (i / N)%nat = Some x) /\
    sum_list (length <$> bs) = length items /\
    (forall b, b ∈ bs ->
       length b = (length items / N)%nat \/
       length b = ((length items + N - 1) / N)%nat) /\
    interleave bs = items.
Proof.
  intros Hn items N.
  assert (HN : (0 < N)%nat) by (unfold N; lia).
  destruct (distribute_dealt n lines Hn) as (bs & Hrun & Hd).
  fold items N in Hd. exists bs. split; [done|].
  split; [apply Hd|]. split.
  { intros i x Hi. by eapply dealt_position. }
  split; [apply Hd|]. split.
  { intros b [j Hj]%list_elem_of_lookup_1. by eapply dealt_size. }
  by eapply dealt_interleave.
Qed.

Lemma partition_round_robin_witness :
  1 <= 2 /\
  exists bs,
    distribute 2 ["u1 f1"; "u2 7 f2"; "u3 f3"] = Ok bs /\
    length bs = 2%nat /\
    interleave bs = [["u1"; "f1"]; ["u2"; "7"; "f2"]; ["u3"; "f3"]].
Proof.
  split; [lia|].
  destruct (partition_round_robin 2 ["u1 f1"; "u2 7 f2"; "u3 f3"])
    as (bs & Hrun & Hlen & _ & _ & _ & Hint); [lia|].
  exists bs. split; [exact Hrun|]. split; [exact Hlen|exact Hint].
Defined.

(** C6.  Whatever error [os.makedirs] fails with, directory already there
    or any other, the worker goes on: the item's transfer is attempted and
    its log line written, and the processing of the item ends normally. *)
Theorem directory_creation_failure_tolerated (env : Env)
    (package_directory : string) (i j : nat) (items : list string)
    (errno : nat) :
  well_formed items ->
  let filename := path_join package_directory (item_filename items) in
  os_makedirs env i j (dirname filename) = Some errno ->
  result_of (makedirs env i j (dirname filename)) = Raise (OSError errno) /\
  result_of (try_except_OSError (makedirs env i j (dirname filename))) =
    Ok tt /\
  retrieve_item env package_directory i j items =
    (item_events env package_directory i j items, [], Ok tt).
Proof.
  intros Hwf filename Hfail. split; [|split].
  - unfold makedirs. by rewrite Hfail.
  - unfold makedirs. by rewrite Hfail.
  - by apply retrieve_item_wf.
Qed.

Lemma directory_creation_failure_tolerated_witness :
  let env := sample_env [] 0 (Some 13%nat) in
  let items := ["http://host/b"; "data/b"] in
  well_formed items /\
  os_makedirs env 0 0 (dirname (path_join "/srv/bags/bag1" "data/b")) =
    Some 13%nat /\
  spawns (events_of (retrieve_item env "/srv/bags/bag1" 0 0 items)) =
    [("wget", ["wget"; "-q"; "-O"; "/srv/bags/bag1/data/b"; "http://host/b"])].
Proof.
  intros env items.
  assert (Hwf : well_formed items) by (left; reflexivity).
  split; [exact Hwf|]. split; [reflexivity|].
  destruct (directory_creation_failure_tolerated env "/srv/bags/bag1" 0 0
              items 13 Hwf eq_refl) as (_ & _ & ->).
  reflexivity.
Defined.

(** C3 (as stated, refuted).  The retrieval order below has a line of one
    token.  Reading it raises nothing: the one-token tuple is put into a
    bucket, and the worker of that bucket first retrieves the item before
    it and only then ends with exit status 1. *)
Lemma malformed_line_reaches_worker :
  let lines := ["http://host/a data/a
"; "orphan
"] in
  let run := main (sample_env lines 0 None) (sample_options 1) in
  Exists (fun line => ~ well_formed (retrieval_item_of line)) lines /\
  distribute 1 lines = Ok [[["http://host/a"; "data/a"]; ["orphan"]]] /\
  exists t,
    children_of run = [(t, 1)] /\
    spawns t =
      [("wget", ["wget"; "-q"; "-O"; "/srv/bags/bag1/data/a"; "http://host/a"])].
Proof.
  intros lines run. split; [|split].
  - apply Exists_cons_tl, Exists_cons_hd.
    intros [H|H]; vm_compute in H; discriminate H.
  - reflexivity.
  - eexists. split; vm_compute; reflexivity.
Qed.

(** C4 (as stated, refuted).  The URL below has the scheme [rsyncx], which
    is not the rsync scheme, and is handed to rsync all the same: the
    script tests the first five characters of the URL, not its scheme. *)
Lemma scheme_with_rsync_prefix_goes_to_rsync :
  let url := "rsyncx://host/path" in
  url_scheme url = "rsyncx" /\ url_scheme url <> "rsync" /\
  transfer_command url "/srv/bags/bag1/path" =
    ("rsync", ["rsync"; "-ar"; url; "/srv/bags/bag1/path"]).
Proof.
  intros url. split; [reflexivity|]. split; [|reflexivity].
  intros H. vm_compute in H. discriminate H.
Qed.

(** C5 (as stated, refuted).  The second line below is empty, and the
    bucket still receives an entry for it: the empty tuple. *)
Lemma empty_line_is_put_in_a_bucket :
  let lines := ["http://host/a data/a
"; "
"] in
  blank "
" = true /\
  distribute 1 lines = Ok [[["http://host/a"; "data/a"]; []]].
Proof. split; reflexivity. Qed.

(** C5 (amended).  The retrieval order is consumed line by line and every
    line, empty or not, yields one tuple of tokens that is put in a
    bucket: the buckets hold as many tuples as there are lines, their
    interleave is the list of the tuples of the lines in file order, and
    the tuple of a line of white space only is the empty tuple. *)
Theorem every_line_yields_a_tuple (n : Z) (lines : list string) :
  1 <= n ->
  exists bs,
    distribute n lines = Ok bs /\
    sum_list (length <$> bs) = length lines /\
    interleave bs = retrieval_item_of <$> lines /\
    (forall i line, lines !! i = Some line -> blank line = true ->
       exists b, bs !! (i mod Z.to_nat n)%nat = Some b /\
                 b !! (i / Z.to_nat n)%nat = Some []).
Proof.
  intros Hn. destruct (distribute_dealt n lines Hn) as (bs & Hrun & Hd).
  assert (HN : (0 < Z.to_nat n)%nat) by lia.
  exists bs. split; [done|]. split.
  { destruct Hd as (_ & _ & ->). apply length_fmap. }
  split; [by eapply dealt_interleave|].
  intros i line Hi Hblank.
  eapply dealt_position; [done..|].
  by rewrite list_lookup_fmap, Hi, <- (retrieval_item_of_blank line Hblank).
Qed.

Lemma every_line_yields_a_tuple_witness :
  1 <= 2 /\
  exists bs,
    distribute 2 ["u1 f1"; ""; "u3 f3"] = Ok bs /\
    sum_list (length <$> bs) = 3%nat /\
    interleave bs = [["u1"; "f1"]; []; ["u3"; "f3"]].
Proof.
  split; [lia|].
  destruct (every_line_yields_a_tuple 2 ["u1 f1"; ""; "u3 f3"])
    as (bs & Hrun & Hsum & Hint & _); [lia|].
  exists bs. split; [exact Hrun|]. split; [exact Hsum|exact Hint].
Defined.

(** C10 (as stated, refuted).  The destination name below is absolute and
    the join gives it back unchanged, yet the path is inside the package
    directory. *)
Lemma absolute_name_inside_package_directory :
  let package_directory := "/srv/bags/bag1" in
  let name := "/srv/bags/bag1/data/x" in
  startswith name "/" = true /\
  path_join package_directory name = name /\
  inside_directory package_directory (path_join package_directory name) = true.
Proof. repeat split; reflexivity. Qed.

(** C10 (amended).  For an item whose destination name is an absolute
    path, joining the package directory with the name gives the name
    itself, so the directories are made for, the file is written to and
    the log line records the destination name as it stands, whatever the
    package directory is. *)
Theorem absolute_destination_name (env : Env) (package_directory : string)
    (i j : nat) (items : list string) :
  well_formed items ->
  startswith (item_filename items) "/" = true ->
  let name := item_filename items in
  let cmd := transfer_command (item_url items) name in
  path_join package_directory name = name /\
  retrieve_item env package_directory i j items =
    ([EMakedirs (dirname name); ESpawn cmd.1 cmd.2;
      ELogWrite (log_line (time_asctime env i j) name
                   (os_spawnlp env i j cmd.1 cmd.2))], [], Ok tt).
Proof.
  intros Hwf Habs name cmd.
  assert (Hjoin : path_join package_directory name = name).
  { unfold path_join. fold name in Habs. by rewrite Habs. }
  split; [done|].
  rewrite (retrieve_item_wf _ _ _ _ _ Hwf).
  unfold item_events, item_log, item_command. fold name.
  by rewrite Hjoin.
Qed.

Lemma absolute_destination_name_witness :
  let items := ["ftp://host/c"; "3"; "/var/tmp/c"] in
  well_formed items /\ startswith (item_filename items) "/" = true /\
  log_lines (events_of (retrieve_item (sample_env [] 0 None)
                          "/srv/bags/bag1" 0 0 items)) =
    ["Fri Jan  1 00:00:00 2010 /var/tmp/c 0
"].
Proof.
  intros items.
  assert (Hwf : well_formed items) by (right; reflexivity).
  split; [exact Hwf|]. split; [reflexivity|].
  destruct (absolute_destination_name (sample_env [] 0 None)
              "/srv/bags/bag1" 0 0 items Hwf eq_refl) as (_ & ->).
  reflexivity.
Defined.

(** C7 (as stated, refuted).  Both paths are given, the number of processes
    is 0 and the retrieval order has one line: the script ends with an
    uncaught [ZeroDivisionError], exit status 1, without forking or
    waiting.  Likewise, with 2 processes and a manifest path that names no
    file, the script ends with the uncaught error of [shutil.copy]. *)
Lemma zero_processes_exit_status :
  let lines := ["http://host/a data/a
"] in
  let run := main (sample_env lines 0 None) (sample_options 0) in
  let run' := main (without_files (sample_env lines 0 None))
                (sample_options 2) in
  file_manifest (sample_options 0) = Some "manifest-md5.txt" /\
  retrieval_order (sample_options 0) = Some "fetch.txt" /\
  result_of run = Raise ZeroDivisionError /\
  exit_status run = 1 /\
  waits (events_of run) = [] /\ children_of run = [] /\
  result_of run' = Raise (IOError 2) /\
  exit_status run' = 1 /\ children_of run' = [].
Proof. repeat split; reflexivity. Qed.

(** C7 (amended).  If the file manifest or the retrieval order is missing,
    the script prints a usage message and ends with exit status 2, having
    done nothing else.  Otherwise, when the number of processes is at least
    1 and the parent's own calls to the file system and to fork succeed,
    the parent forks one worker per bucket, waits once per worker and ends
    with exit status 0, whatever the transfers of the workers return. *)
Theorem exit_behaviour (env : Env) (options : Options) :
  (file_manifest options = None \/ retrieval_order options = None ->
   exists msg, main env options = ([EUsage msg], [], Raise (SystemExit 2)) /\
               exit_status (main env options) = 2) /\
  (forall manifest order,
     file_manifest options = Some manifest ->
     retrieval_order options = Some order ->
     1 <= num_processes options ->
     parent_calls_succeed env options manifest order ->
     exit_status (main env options) = 0 /\
     waits (events_of (main env options)) =
       seq 0 (Z.to_nat (num_processes options)) /\
     length (children_of (main env options)) =
       Z.to_nat (num_processes options)).
Proof.
  split.
  - intros Hmissing. unfold main.
    destruct (file_manifest options) as [manifest|].
    + destruct Hmissing as [H|H]; [discriminate H|]. rewrite H.
      by eexists.
    + by eexists.
  - intros manifest order Hm Hr Hn (Hmk & Hc1 & Hc2 & Hread & Hopen & Hfork).
    assert (Hmain : main env options =
      retrieve_package env (num_processes options)
        (match package_identifier options with
         | None => generate_package_identifier env
         | Some s => s
         end) manifest order
        (match destination_path options with
         | None => os_getcwd env
         | Some s => s
         end)).
    { unfold main. by rewrite Hm, Hr. }
    rewrite Hmain.
    destruct (retrieve_package_ok env (num_processes options) _ manifest
                order _ Hn Hmk Hc1 Hc2 Hread Hopen Hfork)
      as (Hres & Hwaits & Hchildren).
    split; [|done]. unfold exit_status. by rewrite Hres.
Qed.

Lemma exit_behaviour_witness :
  let env := sample_env ["http://host/a data/a
"; "rsync://host/m/b 5 data/b
"] 1 None in
  1 <= num_processes (sample_options 2) /\
  parent_calls_succeed env (sample_options 2) "manifest-md5.txt" "fetch.txt" /\
  exit_status (main env (sample_options 2)) = 0 /\
  length (children_of (main env (sample_options 2))) = 2%nat.
Proof.
  intros env.
  assert (Hn : 1 <= num_processes (sample_options 2)) by (simpl; lia).
  assert (Hok : parent_calls_succeed env (sample_options 2)
                  "manifest-md5.txt" "fetch.txt").
  { repeat split; try reflexivity.
    - by eexists.
    - intros i. by eexists. }
  split; [exact Hn|]. split; [exact Hok|].
  destruct (exit_behaviour env (sample_options 2)) as [_ Hrun].
  destruct (Hrun "manifest-md5.txt" "fetch.txt" eq_refl eq_refl Hn Hok)
    as (Hexit & _ & Hchildren).
  split; [exact Hexit|exact Hchildren].
Defined.

(** C8.  When no package identifier is supplied, the script works under
    the identifier [str(int(time.time()))].  For a clock that reads a time
    at or after the epoch this is the number of whole seconds since the
    epoch written in decimal, a non-empty string of digits, and a run
    whose clock reads more than one second later gets a different
    identifier. *)
Theorem generated_identifier (env env' : Env) (options : Options)
    (manifest order : string) :
  package_identifier options = None ->
  file_manifest options = Some manifest ->
  retrieval_order options = Some order ->
  (0 <= time_time env)%Q ->
  main env options =
    retrieve_package env (num_processes options)
      (generate_package_identifier env) manifest order
      (match destination_path options with
       | None => os_getcwd env
       | Some s => s
       end) /\
  generate_package_identifier env = str_of_int (Qfloor (time_time env)) /\
  pure_decimal (generate_package_identifier env) /\
  ((time_time env + 1 < time_time env')%Q ->
   generate_package_identifier env <> generate_package_identifier env').
Proof.
  intros Hid Hm Hr Ht.
  destruct (int_of_float_nonneg _ Ht) as [Hfloor Hpos].
  split; [|split; [|split]].
  - unfold main. by rewrite Hm, Hr, Hid.
  - unfold generate_package_identifier. by rewrite Hfloor.
  - unfold generate_package_identifier. rewrite Hfloor.
    by apply str_of_int_pure_decimal.
  - intros Hlater Heq. unfold generate_package_identifier in Heq.
    apply str_of_int_inj in Heq.
    assert (Ht' : (0 <= time_time env')%Q) by lra.
    destruct (int_of_float_nonneg _ Ht') as [Hfloor' _].
    rewrite Hfloor, Hfloor' in Heq.
    pose proof (Qfloor_more_than_a_second _ _ Hlater). lia.
Qed.

Lemma generated_identifier_witness :
  let env := sample_env [] 0 None in
  let options := {| num_processes := 16; package_identifier := None;
                    file_manifest := Some "manifest-md5.txt";
                    retrieval_order := Some "fetch.txt";
                    destination_path := None |} in
  let env' := at_time (2524608003 # 2) env in
  (0 <= time_time env)%Q /\
  generate_package_identifier env = "1262304000" /\
  pure_decimal (generate_package_identifier env) /\
  generate_package_identifier env <> generate_package_identifier env'.
Proof.
  intros env options env'.
  assert (Ht : (0 <= time_time env)%Q) by (vm_compute; discriminate).
  split; [exact Ht|].
  destruct (generated_identifier env env' options "manifest-md5.txt"
              "fetch.txt" eq_refl eq_refl eq_refl Ht)
    as (_ & _ & Hdec & Hlater).
  split; [reflexivity|]. split; [exact Hdec|].
  apply Hlater. vm_compute. reflexivity.
Defined.

(** * Further properties *)

(** ** The partitioner at its edges and in detail *)

Lemma dealt_size_exact {A} N (items : list A) bs j b :
  (0 < N)%nat -> dealt N items bs -> bs !! j = Some b ->
  length b = (length items / N +
              if (j <? length items mod N)%nat then 1 else 0)%nat.
Proof.
  intros HN Hd Hj.
  pose proof (dealt_bucket_full _ _ _ _ _ Hd Hj) as (HjN & Hge & Hlt).
  pose proof (Nat.div_mod_eq (length items) N) as Hk.
  pose proof (Nat.mod_upper_bound (length items) N ltac:(lia)) as Hm.
  set (m := (length items mod N)%nat) in *.
  set (q := (length items / N)%nat) in *. clearbody m q.
  revert Hge Hlt Hk. generalize (length items) (length b).
  intros k L Hge Hlt Hk.
  destruct (Nat.ltb_spec j m) as [Hjm|Hjm].
  - assert (q < L)%nat by (destruct (Nat.le_gt_cases L q); [nia|done]).
    specialize (Hlt ltac:(lia)).
    assert (L <= q + 1)%nat by (destruct (Nat.le_gt_cases L (q + 1)); nia).
    lia.
  - assert (q <= L)%nat by (destruct (Nat.le_gt_cases q L); nia).
    destruct (Nat.eq_dec L 0%nat) as [->|HL]; [lia|].
    specialize (Hlt ltac:(lia)).
    assert (L <= q)%nat by (destruct (Nat.le_gt_cases L q); nia).
    lia.
Qed.

(** X1.  Without lines the partitioner returns [range(n)] empty buckets
    for every [n], none when [n <= 0].  With at least one line and
    [n <= 0] it raises at the first line: [ZeroDivisionError] for [n = 0],
    [IndexError] for [n < 0], whose tuple of buckets is empty. *)
Theorem partition_without_workers (n : Z) (line : string)
    (lines : list string) :
  n <= 0 ->
  distribute n [] = Ok [] /\
  distribute n (line :: lines) =
    Raise (if n =? 0 then ZeroDivisionError else IndexError).
Proof.
  intros Hn. unfold distribute, range_len.
  replace (Z.to_nat n) with 0%nat by lia. split; [done|].
  cbn [replicate distribute_loop]. unfold py_mod.
  destruct (Z.eqb_spec n 0) as [->|Hne]; [done|].
  cbn [rbind]. rewrite Z.mod_0_l by done. reflexivity.
Qed.

Lemma partition_without_workers_witness :
  -3 <= 0 /\
  distribute (-3) ["http://host/a data/a"] = Raise IndexError.
Proof.
  split; [lia|].
  destruct (partition_without_workers (-3) "http://host/a data/a" [])
    as [_ H]; [lia|].
  exact H.
Defined.

(** X2.  For [n >= 1] processes and [k] lines, bucket [j] receives exactly
    [k / n] items, and one more when [j < k mod n]: the first [k mod n]
    buckets carry the extra items, so a bucket is never larger than one
    before it and never more than one item smaller. *)
Theorem bucket_sizes_exact (n : Z) (lines : list string)
    (bs : list (list (list string))) :
  1 <= n -> distribute n lines = Ok bs ->
  let N := Z.to_nat n in
  (forall j b, bs !! j = Some b ->
     length b = (length lines / N +
                 if (j <? length lines mod N)%nat then 1 else 0)%nat) /\
  (forall j j' b b', (j <= j')%nat ->
     bs !! j = Some b -> bs !! j' = Some b' ->
     (length b' <= length b <= length b' + 1)%nat).
Proof.
  intros Hn Hrun N.
  destruct (distribute_dealt n lines Hn) as (bs' & Hrun' & Hd).
  rewrite Hrun in Hrun'. injection Hrun' as <-.
  assert (HN : (0 < N)%nat) by (unfold N; lia).
  assert (Hsize : forall j b, bs !! j = Some b ->
    length b = (length lines / N +
                if (j <? length lines mod N)%nat then 1 else 0)%nat).
  { intros j b Hj.
    rewrite (dealt_size_exact _ _ _ _ _ HN Hd Hj). by rewrite length_fmap. }
  split; [exact Hsize|].
  intros j j' b b' Hjj Hb Hb'.
  rewrite (Hsize _ _ Hb), (Hsize _ _ Hb').
  destruct (Nat.ltb_spec j (length lines mod N));
    destruct (Nat.ltb_spec j' (length lines mod N)); lia.
Qed.

Lemma bucket_sizes_exact_witness :
  1 <= 3 /\
  exists bs, distribute 3 ["a 1"; "b 2"; "c 3"; "d 4"; "e 5"] = Ok bs /\
    forall j b, bs !! j = Some b ->
      length b = (1 + if (j <? 2)%nat then 1 else 0)%nat.
Proof.
  split; [lia|]. eexists. split; [reflexivity|].
  exact (proj1 (bucket_sizes_exact 3 ["a 1"; "b 2"; "c 3"; "d 4"; "e 5"] _
                  ltac:(lia) eq_refl)).
Defined.

(** ** Strings: append, reversal and the tokens of a line *)

Lemma string_app_cons (c : ascii) (s t : string) :
  String c s +:+ t = String c (s +:+ t).
Proof. reflexivity. Qed.

Lemma app_nil_l_string (t : string) : "" +:+ t = t.
Proof. reflexivity. Qed.

Lemma app_nil_r_string (s : string) : s +:+ "" = s.
Proof. induction s as [|c s IH]; [done|]. by rewrite string_app_cons, IH. Qed.

Lemma app_assoc_string (s t u : string) : (s +:+ t) +:+ u = s +:+ (t +:+ u).
Proof. induction s as [|c s IH]; [done|]. by rewrite !string_app_cons, IH. Qed.

Lemma rev_app_spec (a b : string) :
  String.rev_app a b = String.rev a +:+ b.
Proof.
  unfold String.rev. revert b. induction a as [|c a IH]; intros b; [done|].
  cbn [String.rev_app]. rewrite (IH (String c b)), (IH (String c "")).
  by rewrite app_assoc_string.
Qed.

Lemma rev_app_append (a b acc : string) :
  String.rev_app (a +:+ b) acc = String.rev_app b (String.rev_app a acc).
Proof.
  revert acc. induction a as [|c a IH]; intros acc; [done|].
  rewrite string_app_cons. cbn [String.rev_app]. apply IH.
Qed.

Lemma rev_app_string (a b : string) :
  String.rev (a +:+ b) = String.rev b +:+ String.rev a.
Proof.
  unfold String.rev at 1. rewrite rev_app_append. apply rev_app_spec.
Qed.

Lemma rev_involutive_string (a : string) : String.rev (String.rev a) = a.
Proof.
  induction a as [|c a IH]; [done|].
  unfold String.rev at 2. cbn [String.rev_app].
  rewrite rev_app_spec, rev_app_string, IH. reflexivity.
Qed.

Lemma blank_app (a b : string) : blank (a +:+ b) = blank a && blank b.
Proof.
  induction a as [|c a IH]; [done|].
  rewrite string_app_cons. cbn [blank]. by rewrite IH, andb_assoc.
Qed.

Lemma blank_rev (a : string) : blank (String.rev a) = blank a.
Proof.
  induction a as [|c a IH]; [done|].
  unfold String.rev. cbn [String.rev_app]. rewrite rev_app_spec, blank_app, IH.
  cbn [blank]. by rewrite andb_true_r, andb_comm.
Qed.

Lemma lstrip_decompose (s : string) :
  exists ws, blank ws = true /\ s = ws +:+ lstrip s.
Proof.
  induction s as [|c s (ws & Hws & IH)]; [by exists ""|].
  cbn [lstrip]. destruct (is_space c) eqn:Hc.
  - exists (String c ws). cbn [blank]. rewrite Hc, Hws, string_app_cons.
    split; [done|]. by rewrite <- IH.
  - by exists "".
Qed.

Lemma rstrip_decompose (s : string) :
  exists ws, blank ws = true /\ s = rstrip s +:+ ws.
Proof.
  destruct (lstrip_decompose (String.rev s)) as (ws & Hws & Hrev).
  exists (String.rev ws). split; [by rewrite blank_rev|].
  unfold rstrip. rewrite <- rev_app_string, <- Hrev.
  by rewrite rev_involutive_string.
Qed.

Lemma has_space_app (a b : string) :
  has_space (a +:+ b) = has_space a || has_space b.
Proof.
  induction a as [|c a IH]; [done|].
  rewrite string_app_cons. cbn [has_space]. by rewrite IH, orb_assoc.
Qed.

Lemma split_from_clean (s cur : string) :
  has_space cur = false ->
  Forall (fun t => t <> "" /\ has_space t = false) (split_from cur s).
Proof.
  revert cur. induction s as [|c s IH]; intros cur Hcur.
  - destruct cur; [constructor|]. by repeat constructor.
  - cbn [split_from]. destruct (is_space c) eqn:Hc.
    + destruct cur; [by apply IH|].
      constructor; [done|by apply IH].
    + apply IH. rewrite has_space_app. cbn [has_space].
      by rewrite Hcur, Hc.
Qed.

Lemma split_from_blank (ws cur : string) :
  blank ws = true -> split_from cur ws = split_from cur "".
Proof.
  revert cur. induction ws as [|c ws IH]; intros cur Hws; [done|].
  cbn [blank] in Hws. apply andb_true_iff in Hws as [Hc Hws].
  cbn [split_from]. rewrite Hc.
  destruct cur; rewrite IH by done; reflexivity.
Qed.

Lemma split_from_trailing_blank (t ws cur : string) :
  blank ws = true -> split_from cur (t +:+ ws) = split_from cur t.
Proof.
  intros Hws. revert cur. induction t as [|c t IH]; intros cur.
  - rewrite app_nil_l_string. by apply split_from_blank.
  - rewrite string_app_cons. cbn [split_from]. by rewrite !IH.
Qed.

Lemma split_lstrip (s : string) : split (lstrip s) = split s.
Proof.
  unfold split. induction s as [|c s IH]; [done|].
  cbn [lstrip split_from]. destruct (is_space c) eqn:Hc; [done|].
  cbn [split_from]. by rewrite Hc.
Qed.

Lemma split_strip (s : string) : split (strip s) = split s.
Proof.
  rewrite <- (split_lstrip s). unfold strip, split.
  destruct (rstrip_decompose (lstrip s)) as (ws & Hws & Heq).
  rewrite <- (split_from_trailing_blank (rstrip (lstrip s)) ws "" Hws).
  by rewrite <- Heq.
Qed.

(** Reading a token that has no white space in it. *)
Lemma split_from_token (t rest cur : string) :
  has_space t = false ->
  split_from cur (t +:+ rest) = split_from (cur +:+ t) rest.
Proof.
  revert cur. induction t as [|c t IH]; intros cur Ht.
  - by rewrite app_nil_l_string, app_nil_r_string.
  - cbn [has_space] in Ht. apply orb_false_iff in Ht as [Hc Ht].
    rewrite string_app_cons. cbn [split_from]. rewrite Hc, IH by done.
    by rewrite app_assoc_string.
Qed.

Lemma split_from_leading_blank (ws rest : string) :
  blank ws = true -> split_from "" (ws +:+ rest) = split_from "" rest.
Proof.
  induction ws as [|c ws IH]; intros Hws; [done|].
  cbn [blank] in Hws. apply andb_true_iff in Hws as [Hc Hws].
  rewrite string_app_cons. cbn [split_from]. rewrite Hc. by apply IH.
Qed.

Lemma split_token_then_separator (t sep rest : string) :
  token t -> separator sep ->
  split_from "" (t +:+ sep +:+ rest) = t :: split_from "" rest.
Proof.
  intros [Hne Hclean] [Hsep Hblank].
  rewrite split_from_token, app_nil_l_string by done.
  destruct sep as [|c sep]; [done|].
  cbn [blank] in Hblank. apply andb_true_iff in Hblank as [Hc Hblank].
  rewrite string_app_cons. cbn [split_from]. rewrite Hc.
  destruct t; [done|]. f_equal. by apply split_from_leading_blank.
Qed.

Lemma split_last_token (t trail : string) :
  token t -> blank trail = true -> split_from "" (t +:+ trail) = [t].
Proof.
  intros [Hne Hclean] Htrail.
  rewrite split_from_trailing_blank by done.
  rewrite <- (app_nil_r_string t) at 1.
  rewrite split_from_token, app_nil_l_string by done.
  by destruct t.
Qed.

(** X3.  Every token of the tuple read from a line is non-empty and free
    of white space, whatever the line: a url or a file name taken from a
    tuple never contains a blank, a tab or a line end. *)
Theorem tokens_are_clean (line : string) :
  Forall token (retrieval_item_of line).
Proof. unfold retrieval_item_of, split. by apply split_from_clean. Qed.

(** X4.  Reading a line gives back the tokens it was written with: a url,
    a size and a file name (or a url and a file name), separated by any
    white space, with any white space before and after (the line end
    included), are read as exactly these tokens, and the worker takes the
    first as url and the last as file name.  The [strip] of line 44 changes
    nothing: [split] alone yields the same tuple. *)
Theorem line_round_trip (url size filename lead sep1 sep2 trail : string) :
  token url -> token size -> token filename ->
  blank lead = true -> separator sep1 -> separator sep2 ->
  blank trail = true ->
  retrieval_item_of
    (lead +:+ url +:+ sep1 +:+ size +:+ sep2 +:+ filename +:+ trail) =
    [url; size; filename] /\
  retrieval_item_of (lead +:+ url +:+ sep1 +:+ filename +:+ trail) =
    [url; filename] /\
  url_and_filename
    (retrieval_item_of
       (lead +:+ url +:+ sep1 +:+ size +:+ sep2 +:+ filename +:+ trail)) =
    Ok (url, filename) /\
  (forall line, retrieval_item_of line = split line).
Proof.
  intros Hurl Hsize Hfile Hlead Hsep1 Hsep2 Htrail.
  assert (H3 : retrieval_item_of
    (lead +:+ url +:+ sep1 +:+ size +:+ sep2 +:+ filename +:+ trail) =
    [url; size; filename]).
  { unfold retrieval_item_of. rewrite split_strip. unfold split.
    rewrite split_from_leading_blank by done.
    rewrite !split_token_then_separator by done.
    by rewrite split_last_token. }
  split; [exact H3|]. split; [|split].
  - unfold retrieval_item_of. rewrite split_strip. unfold split.
    rewrite split_from_leading_blank by done.
    rewrite split_token_then_separator by done.
    by rewrite split_last_token.
  - by rewrite H3.
  - intros line. apply split_strip.
Qed.

Lemma line_round_trip_witness :
  token "rsync://host/mod/a" /\ token "10" /\ token "data/a" /\
  separator " " /\
  retrieval_item_of "rsync://host/mod/a 10 data/a
" = ["rsync://host/mod/a"; "10"; "data/a"].
Proof.
  assert (H1 : token "rsync://host/mod/a") by (split; [discriminate|done]).
  assert (H2 : token "10") by (split; [discriminate|done]).
  assert (H3 : token "data/a") by (split; [discriminate|done]).
  assert (H4 : separator " ") by (split; [discriminate|done]).
  split; [exact H1|]. split; [exact H2|]. split; [exact H3|].
  split; [exact H4|].
  exact (proj1 (line_round_trip "rsync://host/mod/a" "10" "data/a" ""
                  " " " " "
" H1 H2 H3 eq_refl H4 H4 eq_refl)).
Defined.

(** ** The run as a whole *)

Lemma distribute_loop_length n lines bs c bs' :
  distribute_loop n lines bs c = Ok bs' -> length bs' = length bs.
Proof.
  revert bs c. induction lines as [|line lines IH]; intros bs c H.
  - by injection H as <-.
  - cbn [distribute_loop] in H.
    destruct (py_mod c n) as [bn|e]; [|done]. cbn [rbind] in H.
    unfold bucket_append in H.
    destruct (py_index (length bs) bn) as [j|e]; [|done].
    cbn [rbind] in H. apply IH in H. by rewrite length_alter in H.
Qed.

Lemma distribute_length n lines bs :
  distribute n lines = Ok bs -> length bs = range_len n.
Proof.
  intros H. apply distribute_loop_length in H.
  by rewrite length_replicate in H.
Qed.

Lemma wait_loop_events env i count :
  wait_loop env i count = (wait_events env (seq i count), [], Ok tt).
Proof.
  revert i. induction count as [|count IH]; intros i; [done|].
  cbn [wait_loop]. by rewrite IH.
Qed.

Lemma child_lookup env dir (bs : list (list (list string))) i b :
  bs !! i = Some b -> child env dir bs i = worker env dir i b.
Proof.
  intros H. unfold child, tuple_get. rewrite H. unfold bind, lift.
  by destruct (worker env dir i b) as [[t c] r].
Qed.

Lemma children_of_buckets env dir (bs : list (list (list string))) :
  (fun i => run_process (child env dir bs i)) <$> seq 0 (length bs) =
  imap (fun i b => run_process (worker env dir i b)) bs.
Proof.
  apply list_eq. intros i.
  rewrite list_lookup_fmap, list_lookup_imap.
  destruct (bs !! i) as [b|] eqn:Hb.
  - rewrite lookup_seq_lt by (by eapply lookup_lt_Some).
    cbn -[child worker run_process].
    by rewrite (child_lookup _ _ _ _ _ Hb).
  - apply lookup_ge_None in Hb. by rewrite lookup_seq_ge.
Qed.

(** After a successful setup the script is its setup, then the fork loop
    over [range(num_processes)], then the wait loop. *)
Lemma main_after_setup env options manifest order lines bs :
  setup_succeeds env options manifest order lines bs ->
  main env options =
  ((setup_events env options manifest order, [], Ok tt) >>
   let* pids := fork_loop env (package_directory_of env options) bs
                  (seq 0 (range_len (num_processes options))) [] in
   wait_loop env 0 (range_len (num_processes options))).
Proof.
  intros (Hm & Hr & Hmk & Hc1 & Hc2 & Hread & Hdist & Hopen).
  unfold main, retrieve_package, setup_events. rewrite Hm, Hr.
  fold (package_directory_of env options).
  set (dir := package_directory_of env options) in *.
  rewrite Hc1, Hc2, Hread, Hopen.
  destruct (os_path_isdir env dir); [|rewrite Hmk by done];
    cbn; rewrite Hdist; cbn;
    destruct (fork_loop env dir bs _ []) as [[t c] [pids|e]]; cbn;
    try reflexivity;
    by destruct (wait_loop env 0 _) as [[t' c'] r'].
Qed.

(** With every fork succeeding as well, the whole run is known. *)
Lemma main_succeeds env options manifest order lines bs :
  setup_succeeds env options manifest order lines bs ->
  (forall i, exists pid, os_fork env i = Ok pid) ->
  main env options =
  (setup_events env options manifest order ++
   (EFork <$> seq 0 (length bs)) ++ wait_events env (seq 0 (length bs)),
   imap (fun i b =>
           run_process (worker env (package_directory_of env options) i b))
        bs,
   Ok tt).
Proof.
  intros Hsetup Hfork. rewrite (main_after_setup _ _ _ _ _ _ Hsetup).
  destruct Hsetup as (_ & _ & _ & _ & _ & _ & Hdist & _).
  rewrite <- (distribute_length _ _ _ Hdist).
  destruct (fork_loop_ok env (package_directory_of env options) bs Hfork
              (seq 0 (length bs)) []) as [pids ->].
  rewrite wait_loop_events, children_of_buckets. cbn.
  by rewrite !app_nil_r.
Qed.

Lemma worker_process_wf env dir i bucket :
  Forall well_formed bucket ->
  run_process (worker env dir i bucket) =
  (EPrint (working_on (length bucket) i) :: bucket_events env dir i 0 bucket,
   0).
Proof.
  intros Hwf. unfold worker. rewrite (retrieve_items_wf _ _ _ _ _ Hwf).
  cbn. by rewrite app_nil_r.
Qed.

Lemma round_fmap {A B} (f : A -> B) r (bs : list (list A)) :
  round r (fmap (M:=list) f <$> bs) = f <$> round r bs.
Proof.
  unfold round. induction bs as [|b bs IH]; [done|].
  csimpl. rewrite list_lookup_fmap, IH. by destruct (b !! r).
Qed.

Lemma interleave_fmap {A B} (f : A -> B) (bs : list (list A)) :
  interleave (fmap (M:=list) f <$> bs) = f <$> interleave bs.
Proof.
  unfold interleave.
  replace (length <$> (fmap (M:=list) f <$> bs)) with (length <$> bs).
  - induction (seq 0 (max_list (length <$> bs))) as [|r l IH]; [done|].
    cbn [flat_map]. by rewrite fmap_app, IH, round_fmap.
  - rewrite <- list_fmap_compose. apply list_fmap_ext.
    intros i b _. cbn. by rewrite length_fmap.
Qed.

Lemma dealt_Forall {A} (P : A -> Prop) N (items : list A) bs :
  dealt N items bs -> Forall P items -> Forall (Forall P) bs.
Proof.
  intros (_ & Hlook & _) Hitems.
  apply Forall_lookup_2. intros j b Hj.
  apply Forall_lookup_2. intros r x Hx.
  rewrite (Hlook _ _ Hj) in Hx. by eapply Forall_lookup_1.
Qed.

(** X5.  When the set-up and every fork succeed, the parent does, in this
    order and nothing else: make the package directory unless it is there,
    copy the manifest and then the retrieval order into it, read the
    retrieval order, open [retrieval.log] in the package directory, fork
    once for each index of [range(num_processes)], and only then wait once
    per index and print a status line per wait; it then ends normally,
    with exit status 0. *)
Theorem parent_order_of_work (env : Env) (options : Options)
    (manifest order : string) (lines : list string)
    (bs : list (list (list string))) :
  setup_succeeds env options manifest order lines bs ->
  (forall i, exists pid, os_fork env i = Ok pid) ->
  let N := Z.to_nat (num_processes options) in
  let dir := package_directory_of env options in
  events_of (main env options) =
    (if os_path_isdir env dir then [] else [EMkdir dir]) ++
    [ECopy manifest dir; ECopy order dir; EReadlines order;
     EOpenLog (path_join dir "retrieval.log")] ++
    (EFork <$> seq 0 N) ++
    flat_map (fun i => [EWait i;
                        EPrint (finished_with (os_wait env i).1
                                              (os_wait env i).2)])
             (seq 0 N) /\
  result_of (main env options) = Ok tt /\
  exit_status (main env options) = 0.
Proof.
  intros Hsetup Hfork N dir.
  rewrite (main_succeeds _ _ _ _ _ _ Hsetup Hfork).
  destruct Hsetup as (_ & _ & _ & _ & _ & _ & Hdist & _).
  rewrite (distribute_length _ _ _ Hdist).
  split; [|done]. unfold setup_events, wait_events, events_of. cbn [fst].
  by rewrite <- app_assoc.
Qed.

Lemma parent_order_of_work_witness :
  let lines := ["http://host/a data/a
"] in
  let env := sample_env lines 0 None in
  setup_succeeds env (sample_options 1) "manifest-md5.txt" "fetch.txt" lines
    [[["http://host/a"; "data/a"]]] /\
  events_of (main env (sample_options 1)) =
    [EMkdir "/srv/bags/bag1";
     ECopy "manifest-md5.txt" "/srv/bags/bag1";
     ECopy "fetch.txt" "/srv/bags/bag1";
     EReadlines "fetch.txt";
     EOpenLog "/srv/bags/bag1/retrieval.log";
     EFork 0; EWait 0; EPrint "1 finished with status 0"].
Proof.
  intros lines env.
  assert (Hsetup : setup_succeeds env (sample_options 1) "manifest-md5.txt"
                     "fetch.txt" lines [[["http://host/a"; "data/a"]]]).
  { repeat split; reflexivity. }
  split; [exact Hsetup|].
  destruct (parent_order_of_work env (sample_options 1) _ _ _ _ Hsetup)
    as (Hev & _ & _); [intros i; by eexists|].
  rewrite Hev. reflexivity.
Defined.

(** X6.  When the set-up and every fork succeed, the number of processes
    is at least 1 and every line has 2 or 3 tokens, every line is
    retrieved exactly once: the transfers of the workers, interleaved
    round robin over the workers, are the transfers of the lines in file
    order; the workers together write as many log lines as the file has
    lines; and every worker ends with exit status 0. *)
Theorem every_line_retrieved_once (env : Env) (options : Options)
    (manifest order : string) (lines : list string)
    (bs : list (list (list string))) :
  1 <= num_processes options ->
  setup_succeeds env options manifest order lines bs ->
  (forall i, exists pid, os_fork env i = Ok pid) ->
  Forall (fun line => well_formed (retrieval_item_of line)) lines ->
  let dir := package_directory_of env options in
  let children := children_of (main env options) in
  length children = Z.to_nat (num_processes options) /\
  interleave ((fun p : process => spawns p.1) <$> children) =
    (fun line => item_command dir (retrieval_item_of line)) <$> lines /\
  sum_list ((fun p : process => length (log_lines p.1)) <$> children) =
    length lines /\
  Forall (fun p : process => p.2 = 0) children.
Proof.
  intros Hn Hsetup Hfork Hlines dir children.
  unfold children. rewrite (main_succeeds _ _ _ _ _ _ Hsetup Hfork).
  fold dir. unfold children_of. cbn [fst snd].
  destruct Hsetup as (_ & _ & _ & _ & _ & _ & Hdist & _).
  destruct (distribute_dealt _ lines Hn) as (bs' & Hdist' & Hd).
  rewrite Hdist in Hdist'. injection Hdist' as <-.
  assert (HN : (0 < Z.to_nat (num_processes options))%nat) by lia.
  assert (Hwf : Forall (Forall well_formed) bs).
  { eapply dealt_Forall; [exact Hd|]. by apply Forall_fmap. }
  assert (Hrun : imap (fun i b => run_process (worker env dir i b)) bs =
                 imap (fun i b => (EPrint (working_on (length b) i) ::
                                   bucket_events env dir i 0 b, 0)) bs).
  { apply imap_ext. intros i b Hb. apply worker_process_wf.
    by eapply Forall_lookup_1. }
  rewrite Hrun. split; [|split; [|split]].
  - rewrite length_imap. apply Hd.
  - rewrite fmap_imap.
    rewrite (imap_ext _ (const (fmap (M:=list) (item_command dir)))).
    + rewrite imap_const, interleave_fmap.
      rewrite (dealt_interleave _ _ _ HN Hd).
      by rewrite <- list_fmap_compose.
    + intros i b _. cbn.
      fold (spawns (bucket_events env dir i 0 b)).
      apply spawns_bucket_events.
  - rewrite fmap_imap.
    rewrite (imap_ext _ (const length)).
    + rewrite imap_const. destruct Hd as (_ & _ & ->).
      apply length_fmap.
    + intros i b _. cbn.
      fold (log_lines (bucket_events env dir i 0 b)).
      by rewrite log_lines_bucket_events, length_imap.
  - apply Forall_lookup_2. intros i p Hp.
    apply list_lookup_imap_Some in Hp as (b & _ & ->). done.
Qed.

Lemma every_line_retrieved_once_witness :
  let lines := ["http://host/a data/a
"; "rsync://host/m/b 5 data/b
"; "ftp://host/c data/c
"] in
  let env := sample_env lines 1 None in
  let children := children_of (main env (sample_options 2)) in
  1 <= num_processes (sample_options 2) /\
  Forall (fun line => well_formed (retrieval_item_of line)) lines /\
  length children = 2%nat /\
  sum_list ((fun p : process => length (log_lines p.1)) <$> children) =
    3%nat.
Proof.
  intros lines env children.
  assert (Hn : 1 <= num_processes (sample_options 2)) by (simpl; lia).
  assert (Hwf : Forall (fun line => well_formed (retrieval_item_of line))
                  lines).
  { constructor; [left; reflexivity|].
    constructor; [right; reflexivity|].
    constructor; [left; reflexivity|constructor]. }
  split; [exact Hn|]. split; [exact Hwf|].
  destruct (every_line_retrieved_once env (sample_options 2)
              "manifest-md5.txt" "fetch.txt" lines
              [[["http://host/a"; "data/a"]; ["ftp://host/c"; "data/c"]];
               [["rsync://host/m/b"; "5"; "data/b"]]] Hn)
    as (Hlen & _ & Hsum & _);
    [repeat split; reflexivity|intros i; by eexists|exact Hwf|].
  split; [exact Hlen|exact Hsum].
Defined.

(** X7.  With fewer lines than processes the surplus workers are started
    all the same and have nothing to do: when the set-up and every fork
    succeed, the worker of every index from the number of lines on only
    prints that it works on 0 items and ends with exit status 0. *)
Theorem surplus_workers_idle (env : Env) (options : Options)
    (manifest order : string) (lines : list string)
    (bs : list (list (list string))) (i : nat) :
  setup_succeeds env options manifest order lines bs ->
  (forall i, exists pid, os_fork env i = Ok pid) ->
  (length lines <= i < Z.to_nat (num_processes options))%nat ->
  children_of (main env options) !! i = Some ([EPrint (working_on 0 i)], 0).
Proof.
  intros Hsetup Hfork Hi.
  rewrite (main_succeeds _ _ _ _ _ _ Hsetup Hfork).
  unfold children_of. cbn [fst snd]. rewrite list_lookup_imap.
  destruct Hsetup as (_ & _ & _ & _ & _ & _ & Hdist & _).
  assert (Hn : 1 <= num_processes options) by lia.
  destruct (distribute_dealt _ lines Hn) as (bs' & Hdist' & Hd).
  rewrite Hdist in Hdist'. injection Hdist' as <-.
  destruct (lookup_lt_is_Some_2 bs i) as [b Hb].
  { destruct Hd as (-> & _). lia. }
  rewrite Hb. cbn [fmap option_fmap option_map].
  assert (Hlen : length b = 0%nat).
  { assert (HN : (0 < Z.to_nat (num_processes options))%nat) by lia.
    rewrite (dealt_size_exact _ _ _ _ _ HN Hd Hb), length_fmap.
    rewrite Nat.div_small, Nat.mod_small by lia.
    destruct (Nat.ltb_spec i (length lines)); lia. }
  destruct b; [reflexivity|discriminate Hlen].
Qed.

Lemma surplus_workers_idle_witness :
  let lines := ["http://host/a data/a
"] in
  let env := sample_env lines 0 None in
  (length lines <= 2 < Z.to_nat (num_processes (sample_options 3)))%nat /\
  children_of (main env (sample_options 3)) !! 2%nat =
    Some ([EPrint "working on 0 items in list 2"], 0).
Proof.
  intros lines env. split; [simpl; lia|].
  apply (surplus_workers_idle env (sample_options 3) "manifest-md5.txt"
           "fetch.txt" lines [[["http://host/a"; "data/a"]]; []; []]).
  - repeat split; reflexivity.
  - intros i. by eexists.
  - simpl. lia.
Defined.

Lemma fork_loop_fails env dir (bs : list (list (list string)))
    pre i post pids e :
  (forall j, j ∈ pre -> exists pid, os_fork env j = Ok pid) ->
  os_fork env i = Raise e ->
  fork_loop env dir bs (pre ++ i :: post) pids =
  (EFork <$> (pre ++ [i]),
   (fun j => run_process (child env dir bs j)) <$> pre,
   Raise e).
Proof.
  intros Hpre Hi. revert pids.
  induction pre as [|j pre IH]; intros pids.
  - cbn [app fork_loop]. unfold fork. by rewrite Hi.
  - destruct (Hpre j) as [pid Hpid]; [by left|].
    cbn [app fork_loop]. unfold fork. rewrite Hpid.
    cbn -[child run_process]. rewrite IH; [done|].
    intros j' Hj'. apply Hpre. by right.
Qed.

(** X8.  When the set-up succeeds and the fork for index [i] is the first
    to fail, the script ends there with the error of that fork: the [i]
    workers started before it, those of buckets 0 to [i - 1], are left
    running without anyone waiting for them, and no worker is started for
    the buckets from [i] on. *)
Theorem fork_failure_leaves_workers (env : Env) (options : Options)
    (manifest order : string) (lines : list string)
    (bs : list (list (list string))) (i errno : nat) :
  setup_succeeds env options manifest order lines bs ->
  (forall j, (j < i)%nat -> exists pid, os_fork env j = Ok pid) ->
  os_fork env i = Raise (OSError errno) ->
  (i < Z.to_nat (num_processes options))%nat ->
  let dir := package_directory_of env options in
  result_of (main env options) = Raise (OSError errno) /\
  exit_status (main env options) = 1 /\
  children_of (main env options) =
    imap (fun j b => run_process (worker env dir j b)) (take i bs) /\
  waits (events_of (main env options)) = [].
Proof.
  intros Hsetup Hpre Hi HiN dir.
  rewrite (main_after_setup _ _ _ _ _ _ Hsetup). fold dir.
  destruct Hsetup as (_ & _ & _ & _ & _ & _ & Hdist & _).
  pose proof (distribute_length _ _ _ Hdist) as Hlen.
  unfold range_len in *.
  set (N := Z.to_nat (num_processes options)) in *.
  replace (seq 0 N) with (seq 0 i ++ i :: seq (S i) (N - S i)).
  2:{ change (i :: seq (S i) (N - S i)) with (seq i (S (N - S i))).
      rewrite <- (Nat.add_0_l i) at 2. rewrite <- seq_app.
      f_equal. lia. }
  rewrite (fork_loop_fails env dir bs (seq 0 i) i _ [] (OSError errno));
    [|intros j Hj; apply Hpre; apply elem_of_seq in Hj; lia|done].
  assert (Hchildren :
    (fun j => run_process (child env dir bs j)) <$> seq 0 i =
    imap (fun j b => run_process (worker env dir j b)) (take i bs)).
  { apply list_eq. intros j.
    rewrite list_lookup_fmap, list_lookup_imap.
    destruct (decide (j < i)%nat) as [Hj|Hj].
    - rewrite lookup_seq_lt, lookup_take_lt by done.
      destruct (lookup_lt_is_Some_2 bs j) as [b Hb]; [lia|].
      rewrite Hb. cbn -[child worker run_process].
      by rewrite (child_lookup _ _ _ _ _ Hb).
    - rewrite lookup_seq_ge, lookup_take_ge by lia. done. }
  cbn -[child worker run_process]. rewrite Hchildren.
  split; [done|]. split; [done|]. split; [done|].
  unfold setup_events. rewrite !omap_app.
  assert (Hnone : forall l : list nat,
    omap (fun e => match e with EWait i => Some i | _ => None end)
         (EFork <$> l) = []).
  { induction l; done. }
  rewrite Hnone. by destruct (os_path_isdir env _).
Qed.

Lemma fork_failure_leaves_workers_witness :
  let lines := ["http://host/a data/a
"; "ftp://host/b data/b
"] in
  let env := fork_failing_at 1 11 (sample_env lines 0 None) in
  os_fork env 1 = Raise (OSError 11) /\
  (1 < Z.to_nat (num_processes (sample_options 2)))%nat /\
  exit_status (main env (sample_options 2)) = 1 /\
  length (children_of (main env (sample_options 2))) = 1%nat.
Proof.
  intros lines env. split; [reflexivity|]. split; [simpl; lia|].
  destruct (fork_failure_leaves_workers env (sample_options 2)
              "manifest-md5.txt" "fetch.txt" lines
              [[["http://host/a"; "data/a"]]; [["ftp://host/b"; "data/b"]]]
              1 11) as (_ & Hexit & Hchildren & _).
  - repeat split; reflexivity.
  - intros j Hj. replace j with 0%nat by lia. by eexists.
  - reflexivity.
  - simpl. lia.
  - split; [exact Hexit|]. rewrite Hchildren. reflexivity.
Defined.

(** ** Who does what *)

Lemma events_of_bind {A B} (m : M A) (k : A -> M B) :
  events_of (bind m k) =
  events_of m ++ match result_of m with
                 | Ok a => events_of (k a)
                 | Raise _ => []
                 end.
Proof.
  destruct m as [[t c] [a|e]]; cbn; [|by rewrite app_nil_r].
  by destruct (k a) as [[t' c'] r].
Qed.

Lemma children_of_bind {A B} (m : M A) (k : A -> M B) :
  children_of (bind m k) =
  children_of m ++ match result_of m with
                   | Ok a => children_of (k a)
                   | Raise _ => []
                   end.
Proof.
  destruct m as [[t c] [a|e]]; cbn; [|by rewrite app_nil_r].
  by destruct (k a) as [[t' c'] r].
Qed.

Lemma bind_events_Forall {A B} (P : event -> Prop) (m : M A) (k : A -> M B) :
  Forall P (events_of m) -> (forall a, Forall P (events_of (k a))) ->
  Forall P (events_of (bind m k)).
Proof.
  intros Hm Hk. rewrite events_of_bind. apply Forall_app. split; [done|].
  destruct (result_of m); [apply Hk|constructor].
Qed.

Lemma bind_children_Forall {A B} (Q : process -> Prop) (m : M A)
    (k : A -> M B) :
  Forall Q (children_of m) -> (forall a, Forall Q (children_of (k a))) ->
  Forall Q (children_of (bind m k)).
Proof.
  intros Hm Hk. rewrite children_of_bind. apply Forall_app. split; [done|].
  destruct (result_of m); [apply Hk|constructor].
Qed.

Lemma events_of_try_except (m : M unit) :
  events_of (try_except_OSError m) = events_of m.
Proof. by destruct m as [[t c] [a|[]]]. Qed.

Lemma may_raise_quiet (o : option exn) :
  events_of (may_raise o) = [] /\ children_of (may_raise o) = [].
Proof. by destruct o. Qed.

Lemma retrieve_item_events env dir i j items :
  Forall (fun e => is_worker_event e = true)
         (events_of (retrieve_item env dir i j items)).
Proof.
  unfold retrieve_item.
  apply bind_events_Forall; [by destruct (url_and_filename items)|].
  intros uf. apply bind_events_Forall.
  { rewrite events_of_try_except. unfold makedirs.
    apply bind_events_Forall; [by repeat constructor|].
    intros _. destruct (os_makedirs env i j _); constructor. }
  intros _. apply bind_events_Forall; by repeat constructor.
Qed.

Lemma retrieve_items_events env dir i j bucket :
  Forall (fun e => is_worker_event e = true)
         (events_of (retrieve_items env dir i j bucket)).
Proof.
  revert j. induction bucket as [|items bucket IH]; intros j; [constructor|].
  cbn [retrieve_items]. apply bind_events_Forall; [|intros _; apply IH].
  apply retrieve_item_events.
Qed.

Lemma child_events env dir bs i :
  Forall (fun e => is_worker_event e = true) (events_of (child env dir bs i)).
Proof.
  unfold child. apply bind_events_Forall; [by destruct (tuple_get bs i)|].
  intros bucket. unfold worker.
  apply bind_events_Forall; [by repeat constructor|].
  intros _. apply bind_events_Forall; [|intros _; constructor].
  apply retrieve_items_events.
Qed.

Lemma fork_loop_events env dir bs indices pids :
  Forall (fun e => is_parent_event e = true)
         (events_of (fork_loop env dir bs indices pids)) /\
  Forall (fun p : process => Forall (fun e => is_worker_event e = true) p.1)
         (children_of (fork_loop env dir bs indices pids)).
Proof.
  revert pids. induction indices as [|i indices IH]; intros pids.
  { split; constructor. }
  cbn [fork_loop]. split.
  - apply bind_events_Forall; [|intros pid; apply IH].
    unfold fork. apply bind_events_Forall; [by repeat constructor|].
    intros _. destruct (os_fork env i); constructor.
  - apply bind_children_Forall; [|intros pid; apply IH].
    unfold fork. apply bind_children_Forall; [constructor|].
    intros _. destruct (os_fork env i); [|constructor].
    constructor; [|constructor]. apply child_events.
Qed.

Lemma wait_events_parent env indices :
  Forall (fun e => is_parent_event e = true) (wait_events env indices).
Proof.
  induction indices as [|i indices IH]; [constructor|].
  cbn [wait_events flat_map]. by repeat constructor.
Qed.

(** X9.  In every run, whatever fails and whatever the options are, the
    parent itself never makes intermediate directories, never runs a
    transfer and never writes to the log; and a worker never makes the
    package directory, copies a file, reads the retrieval order, opens the
    log, forks or waits: it only prints, makes directories, runs transfers
    and writes log lines. *)
Theorem parent_and_workers_keep_apart (env : Env) (options : Options) :
  Forall (fun e => is_parent_event e = true) (events_of (main env options)) /\
  Forall (fun p : process => Forall (fun e => is_worker_event e = true) p.1)
         (children_of (main env options)).
Proof.
  unfold main.
  destruct (file_manifest options) as [manifest|];
    [|split; by repeat constructor].
  destruct (retrieval_order options) as [order|];
    [|split; by repeat constructor].
  unfold retrieve_package. split.
  - repeat (apply bind_events_Forall; [|intros ?]);
      try (by repeat constructor);
      try (by rewrite (proj1 (may_raise_quiet _))).
    + destruct (os_path_isdir env _); [constructor|].
      apply bind_events_Forall; [by repeat constructor|].
      intros _. by rewrite (proj1 (may_raise_quiet _)).
    + apply fork_loop_events.
    + rewrite wait_loop_events. apply wait_events_parent.
  - repeat (apply bind_children_Forall; [|intros ?]);
      try (by repeat constructor);
      try (by rewrite (proj2 (may_raise_quiet _))).
    + destruct (os_path_isdir env _); [constructor|].
      apply bind_children_Forall; [constructor|].
      intros _. by rewrite (proj2 (may_raise_quiet _)).
    + apply fork_loop_events.
    + rewrite wait_loop_events. constructor.
Qed.

(** X10.  A worker is started only after the whole set-up has succeeded:
    if a run has started any worker, then both paths were given, the
    package directory was there or was made, both files were copied, the
    retrieval order was read and dealt without error and the log was
    opened.  So a missing file, a bad number of processes or any other
    failure of the set-up retrieves nothing. *)
Theorem no_worker_before_setup (env : Env) (options : Options) :
  children_of (main env options) <> [] ->
  exists manifest order lines bs,
    setup_succeeds env options manifest order lines bs.
Proof.
  intros Hne. unfold main in Hne.
  destruct (file_manifest options) as [manifest|] eqn:Hm;
    [|exfalso; by apply Hne].
  destruct (retrieval_order options) as [order|] eqn:Hr;
    [|exfalso; by apply Hne].
  unfold retrieve_package in Hne.
  fold (package_directory_of env options) in Hne.
  set (dir := package_directory_of env options) in *.
  assert (Hmk : os_path_isdir env dir = false -> os_mkdir env dir = None).
  { intros Hdir. rewrite Hdir in Hne.
    destruct (os_mkdir env dir); [|done]. exfalso. by apply Hne. }
  assert (Hfirst : exists t0,
    (if os_path_isdir env dir then ret tt
     else emit (EMkdir dir) >> may_raise (os_mkdir env dir)) = (t0, [], Ok tt)).
  { destruct (os_path_isdir env dir); [by eexists|].
    rewrite Hmk by done. by eexists. }
  destruct Hfirst as [t0 Hfirst]. rewrite Hfirst in Hne.
  destruct (shutil_copy env manifest dir) eqn:Hc1; [exfalso; by apply Hne|].
  destruct (shutil_copy env order dir) eqn:Hc2; [exfalso; by apply Hne|].
  destruct (file_readlines env order) as [lines|] eqn:Hread;
    [|exfalso; by apply Hne].
  cbn -[path_join fork_loop wait_loop distribute] in Hne.
  destruct (distribute (num_processes options) lines) as [bs|] eqn:Hdist;
    [|exfalso; by apply Hne].
  destruct (file_open_w env (path_join dir "retrieval.log")) eqn:Hopen;
    [exfalso; by apply Hne|].
  exists manifest, order, lines, bs. by repeat split.
Qed.

Lemma no_worker_before_setup_witness :
  let lines := ["http://host/a data/a
"] in
  let env := sample_env lines 0 None in
  children_of (main env (sample_options 1)) <> [] /\
  children_of (main (without_files env) (sample_options 1)) = [].
Proof.
  intros lines env.
  assert (H : children_of (main env (sample_options 1)) <> [])
    by discriminate.
  split; [exact H|].
  destruct (no_worker_before_setup env (sample_options 1) H)
    as (manifest & order & lines' & bs & _).
  reflexivity.
Defined.

(** ** Where the files go *)

Lemma has_slash_app (a b : string) :
  has_slash (a +:+ b) = has_slash a || has_slash b.
Proof.
  induction a as [|c a IH]; [done|].
  rewrite string_app_cons. cbn [has_slash]. by rewrite IH, orb_assoc.
Qed.

Lemma has_slash_rev (a : string) : has_slash (String.rev a) = has_slash a.
Proof.
  induction a as [|c a IH]; [done|].
  unfold String.rev. cbn [String.rev_app].
  rewrite rev_app_spec, has_slash_app, IH.
  cbn [has_slash]. by rewrite orb_false_r, orb_comm.
Qed.

Lemma from_first_slash_app (a b : string) :
  has_slash a = false ->
  from_first_slash (a +:+ String "/" b) = String "/" b.
Proof.
  induction a as [|c a IH]; intros Ha; [done|].
  cbn [has_slash] in Ha. apply orb_false_iff in Ha as [Hc Ha].
  rewrite string_app_cons. cbn [from_first_slash]. rewrite Hc. by apply IH.
Qed.

Lemma string_prefix_app (a b : string) : String.prefix a (a +:+ b) = true.
Proof.
  induction a as [|c a IH]; [by destruct b|].
  rewrite string_app_cons. cbn [String.prefix].
  by destruct (ascii_dec c c).
Qed.

Lemma startswith_slash_false (name : string) :
  has_slash name = false -> startswith name "/" = false.
Proof.
  destruct name as [|c name]; [done|].
  cbn [has_slash]. intros [Hc _]%orb_false_iff.
  unfold startswith. cbn [String.prefix].
  destruct (ascii_dec "/" c) as [<-|]; [done|done].
Qed.

Lemma path_join_relative (dir name : string) :
  startswith name "/" = false ->
  exists sep, (sep = "" \/ sep = "/") /\ path_join dir name = dir +:+ sep +:+ name.
Proof.
  intros Hrel. unfold path_join. rewrite Hrel.
  destruct (String.eqb dir "" || endswith dir "/").
  - exists "". split; [by left|done].
  - exists "/". split; [by right|done].
Qed.

(** X11.  A destination name without any slash makes the worker ask for
    the package directory itself to be created: with a package directory
    that is not empty and does not end in a slash, the file goes to
    [directory/name] and the argument of [os.makedirs] is the package
    directory, which the parent has already made, so that the call fails
    and the failure is passed over. *)
Theorem flat_name_directory (env : Env) (package_directory : string)
    (i j : nat) (items : list string) :
  well_formed items ->
  has_slash (item_filename items) = false ->
  package_directory <> "" ->
  endswith package_directory "/" = false ->
  path_join package_directory (item_filename items) =
    package_directory +:+ "/" +:+ item_filename items /\
  dirname (path_join package_directory (item_filename items)) =
    package_directory /\
  head (events_of (retrieve_item env package_directory i j items)) =
    Some (EMakedirs package_directory).
Proof.
  intros Hwf Hflat Hne Hend.
  set (name := item_filename items) in *.
  assert (Hjoin : path_join package_directory name =
                  package_directory +:+ "/" +:+ name).
  { unfold path_join.
    rewrite (startswith_slash_false _ Hflat), Hend.
    by apply String.eqb_neq in Hne as ->. }
  assert (Hdir : dirname (path_join package_directory name) =
                 package_directory).
  { rewrite Hjoin. unfold dirname.
    rewrite rev_app_string, rev_app_string, app_assoc_string.
    change (String.rev "/") with "/".
    change ("/" +:+ String.rev package_directory)
      with (String "/" (String.rev package_directory)).
    rewrite from_first_slash_app by (by rewrite has_slash_rev).
    unfold endswith in Hend. change (String.rev "/") with "/" in Hend.
    destruct (String.rev package_directory) as [|c r] eqn:Hrev.
    { exfalso. apply Hne.
      by rewrite <- (rev_involutive_string package_directory), Hrev. }
    cbn [String.prefix] in Hend.
    destruct (ascii_dec "/" c) as [<-|Hc]; [by destruct r|].
    assert (Hslash : is_slash c = false).
    { unfold is_slash. apply Ascii.eqb_neq. congruence. }
    cbn [all_slashes lstrip_slashes]. change (is_slash "/") with true.
    rewrite Hslash. cbn [andb].
    by rewrite <- Hrev, rev_involutive_string. }
  split; [done|]. split; [done|].
  rewrite (retrieve_item_wf _ _ _ _ _ Hwf). unfold item_events.
  fold name. by rewrite Hdir.
Qed.

Lemma flat_name_directory_witness :
  let items := ["http://host/readme.txt"; "readme.txt"] in
  well_formed items /\ has_slash (item_filename items) = false /\
  endswith "/srv/bags/bag1" "/" = false /\
  dirname (path_join "/srv/bags/bag1" (item_filename items)) =
    "/srv/bags/bag1".
Proof.
  intros items.
  assert (Hwf : well_formed items) by (left; reflexivity).
  split; [exact Hwf|]. split; [reflexivity|]. split; [reflexivity|].
  exact (proj1 (proj2 (flat_name_directory (sample_env [] 0 None)
                         "/srv/bags/bag1" 0 0 items Hwf eq_refl
                         ltac:(discriminate) eq_refl))).
Defined.

Lemma endswith_slash_spec (dir : string) :
  endswith dir "/" = true <-> exists d, dir = d +:+ "/".
Proof.
  unfold endswith. change (String.rev "/") with "/". split.
  - intros H. destruct (String.rev dir) as [|c r] eqn:Hrev; [done|].
    cbn [String.prefix] in H.
    destruct (ascii_dec "/" c) as [<-|]; [|done].
    exists (String.rev r).
    rewrite <- (rev_involutive_string dir), Hrev.
    unfold String.rev at 1. cbn [String.rev_app]. apply rev_app_spec.
  - intros [d ->]. rewrite rev_app_string.
    change (String.rev "/") with "/". rewrite string_app_cons.
    cbn [String.prefix]. destruct (ascii_dec "/" "/"); [|done].
    by destruct ("" +:+ String.rev d).
Qed.

(** X12.  A destination name that does not begin with a slash is put
    below the package directory as it is written: the path the worker
    fetches to and logs is the package directory, a slash unless the
    directory is empty or ends in one, and the name; so the path begins
    with the package directory. *)
Theorem relative_name_below_package_directory (env : Env)
    (package_directory : string) (i j : nat) (items : list string) :
  well_formed items ->
  startswith (item_filename items) "/" = false ->
  let name := item_filename items in
  let path := path_join package_directory name in
  (package_directory = "" \/ (exists d, package_directory = d +:+ "/") ->
   path = package_directory +:+ name) /\
  (package_directory <> "" ->
   (forall d, package_directory <> d +:+ "/") ->
   path = package_directory +:+ "/" +:+ name) /\
  (exists sep, (sep = "" \/ sep = "/") /\
     path = package_directory +:+ sep +:+ name) /\
  String.prefix package_directory path = true /\
  spawns (events_of (retrieve_item env package_directory i j items)) =
    [transfer_command (item_url items) path] /\
  log_lines (events_of (retrieve_item env package_directory i j items)) =
    [log_line (time_asctime env i j) path
       (os_spawnlp env i j (transfer_command (item_url items) path).1
                           (transfer_command (item_url items) path).2)].
Proof.
  intros Hwf Hrel name path. fold name in Hrel.
  destruct (path_join_relative package_directory _ Hrel) as (sep & Hsep & Hp).
  split; [|split].
  { intros Hdir. unfold path, path_join. rewrite Hrel.
    destruct Hdir as [->|Hends]; [done|].
    apply endswith_slash_spec in Hends as ->. by rewrite orb_true_r. }
  { intros Hne Hends. unfold path, path_join. rewrite Hrel.
    apply String.eqb_neq in Hne as ->.
    destruct (endswith package_directory "/") eqn:Hend; [|done].
    apply endswith_slash_spec in Hend as [d ->]. by destruct (Hends d). }
  split; [by exists sep|]. split.
  { unfold path. rewrite Hp. apply string_prefix_app. }
  rewrite (retrieve_item_wf _ _ _ _ _ Hwf).
  unfold item_events, item_log, item_command. fold name path.
  split; [|done]. cbn. by destruct (transfer_command (item_url items) path).
Qed.

Lemma relative_name_below_package_directory_witness :
  let items := ["ftp://host/c"; "3"; "data/sub/c"] in
  let env := sample_env [] 0 None in
  well_formed items /\ startswith (item_filename items) "/" = false /\
  path_join "/srv/bags/bag1" (item_filename items) =
    "/srv/bags/bag1/data/sub/c" /\
  path_join "/srv/bags/bag1/" (item_filename items) =
    "/srv/bags/bag1/data/sub/c" /\
  spawns (events_of (retrieve_item env "/srv/bags/bag1" 0 0 items)) =
    [("wget", ["wget"; "-q"; "-O"; "/srv/bags/bag1/data/sub/c";
               "ftp://host/c"])].
Proof.
  intros items env.
  assert (Hwf : well_formed items) by (right; reflexivity).
  split; [exact Hwf|]. split; [reflexivity|].
  destruct (relative_name_below_package_directory env "/srv/bags/bag1" 0 0
              items Hwf eq_refl) as (_ & Hslash & _ & _ & Hspawn & _).
  destruct (relative_name_below_package_directory env "/srv/bags/bag1/" 0 0
              items Hwf eq_refl) as (Hnone & _).
  split; [|split].
  - rewrite Hslash; [reflexivity|discriminate|].
    intros d Hd. apply (f_equal String.rev) in Hd.
    rewrite rev_app_string in Hd. vm_compute in Hd.
    discriminate Hd.
  - rewrite Hnone; [reflexivity|]. right. by exists "/srv/bags/bag1".
  - rewrite Hspawn. reflexivity.
Defined.

(** ** Failures stay where they happen *)

(** X13.  What a worker does depends on its own bucket only, and the
    parent's exit status on no worker at all.  When the set-up and every
    fork succeed, the worker of a bucket whose tuples all have 2 or 3
    tokens processes that whole bucket and ends with exit status 0,
    whatever the other buckets hold; the worker of a bucket with a tuple
    of another length stops at that tuple with exit status 1; and the
    parent ends with exit status 0 in either case. *)
Theorem failures_stay_in_their_worker (env : Env) (options : Options)
    (manifest order : string) (lines : list string)
    (bs : list (list (list string))) :
  setup_succeeds env options manifest order lines bs ->
  (forall i, exists pid, os_fork env i = Ok pid) ->
  let dir := package_directory_of env options in
  let children := children_of (main env options) in
  (forall i b, bs !! i = Some b -> Forall well_formed b ->
     children !! i =
       Some (EPrint (working_on (length b) i) ::
             bucket_events env dir i 0 b, 0)) /\
  (forall i pre bad post, bs !! i = Some (pre ++ bad :: post) ->
     Forall well_formed pre -> ~ well_formed bad ->
     children !! i =
       Some (EPrint (working_on (length (pre ++ bad :: post)) i) ::
             bucket_events env dir i 0 pre, 1)) /\
  exit_status (main env options) = 0.
Proof.
  intros Hsetup Hfork dir children. unfold children.
  rewrite (main_succeeds _ _ _ _ _ _ Hsetup Hfork). fold dir.
  unfold children_of. cbn [fst snd]. split; [|split; [|done]].
  - intros i b Hb Hwf. rewrite list_lookup_imap, Hb.
    cbn [fmap option_fmap option_map]. f_equal.
    by apply worker_process_wf.
  - intros i pre bad post Hb Hpre Hbad. rewrite list_lookup_imap, Hb.
    cbn [fmap option_fmap option_map]. f_equal. unfold worker.
    by rewrite (retrieve_items_malformed _ _ _ _ _ _ _ Hpre Hbad).
Qed.

Lemma failures_stay_in_their_worker_witness :
  let lines := ["http://host/a data/a
"; "orphan
"] in
  let env := sample_env lines 0 None in
  let run := main env (sample_options 2) in
  setup_succeeds env (sample_options 2) "manifest-md5.txt" "fetch.txt" lines
    [[["http://host/a"; "data/a"]]; [["orphan"]]] /\
  snd <$> children_of run = [0; 1] /\ exit_status run = 0.
Proof.
  intros lines env run.
  assert (Hsetup : setup_succeeds env (sample_options 2) "manifest-md5.txt"
                     "fetch.txt" lines
                     [[["http://host/a"; "data/a"]]; [["orphan"]]]).
  { repeat split; reflexivity. }
  split; [exact Hsetup|].
  destruct (failures_stay_in_their_worker env (sample_options 2) _ _ _ _
              Hsetup) as (_ & _ & Hexit); [intros i; by eexists|].
  split; [reflexivity|exact Hexit].
Defined.

(** * The claims about the worker's transfers and the log *)

Lemma app_inv_tail_string (s t u : string) : s +:+ u = t +:+ u -> s = t.
Proof.
  intros H. apply (f_equal String.rev) in H.
  rewrite !rev_app_string in H. apply (inj _) in H.
  by rewrite <- (rev_involutive_string s), H, rev_involutive_string.
Qed.

(** C2.  A worker given a bucket of [m] items, each a url with a file name
    or a url with a size and a file name, attempts all [m] transfers in
    bucket order whatever the exit codes of the transfers are: it writes
    exactly [m] log lines, the line of an item being the time, the path
    and the exit code of its transfer in decimal, so that lines of
    different exit codes differ, and terminates with exit status 0. *)
Theorem worker_attempts_every_item (env : Env) (package_directory : string)
    (i : nat) (bucket : list (list string)) :
  Forall well_formed bucket ->
  let w := worker env package_directory i bucket in
  let path items := path_join package_directory (item_filename items) in
  let command items :=
    if String.prefix "rsync" (item_url items)
    then ("rsync", ["rsync"; "-ar"; item_url items; path items])
    else ("wget", ["wget"; "-q"; "-O"; path items; item_url items]) in
  let code j items :=
    os_spawnlp env i j (command items).1 (command items).2 in
  spawns (events_of w) = command <$> bucket /\
  log_lines (events_of w) =
    imap (fun j items =>
            time_asctime env i j +:+ " " +:+ path items +:+ " " +:+
            str_of_int (code j items) +:+ "
") bucket /\
  length (log_lines (events_of w)) = length bucket /\
  exit_status w = 0 /\
  (forall time file c c',
     time +:+ " " +:+ file +:+ " " +:+ str_of_int c +:+ "
" = time +:+ " " +:+ file +:+ " " +:+ str_of_int c' +:+ "
" -> c = c').
Proof.
  intros Hwf w path command code.
  assert (Hw : w = (EPrint (working_on (length bucket) i) ::
                    bucket_events env package_directory i 0 bucket,
                    [], Raise (SystemExit 0))).
  { unfold w, worker. rewrite (retrieve_items_wf _ _ _ _ _ Hwf).
    cbn. by rewrite app_nil_r. }
  assert (Hlog : log_lines (events_of w) =
                 imap (item_log env package_directory i) bucket).
  { rewrite Hw. cbn.
    fold (log_lines (bucket_events env package_directory i 0 bucket)).
    rewrite log_lines_bucket_events. apply imap_ext. by intros. }
  split; [|split; [|split; [|split]]].
  - rewrite Hw. cbn.
    fold (spawns (bucket_events env package_directory i 0 bucket)).
    apply spawns_bucket_events.
  - rewrite Hlog. apply imap_ext. by intros.
  - by rewrite Hlog, length_imap.
  - by rewrite Hw.
  - intros time file c c' H.
    do 4 apply (inj _) in H.
    by apply str_of_int_inj, (app_inv_tail_string _ _ _ H).
Qed.

Lemma worker_attempts_every_item_witness :
  let bucket := [["rsync://host/mod/a"; "10"; "data/a"];
                 ["http://host/b"; "data/b"]] in
  let w := worker (sample_env [] 1 None) "/srv/bags/bag1" 0 bucket in
  Forall well_formed bucket /\
  spawns (events_of w) =
    [("rsync", ["rsync"; "-ar"; "rsync://host/mod/a";
                "/srv/bags/bag1/data/a"]);
     ("wget", ["wget"; "-q"; "-O"; "/srv/bags/bag1/data/b";
               "http://host/b"])] /\
  log_lines (events_of w) =
    ["Fri Jan  1 00:00:00 2010 /srv/bags/bag1/data/a 1
"; "Fri Jan  1 00:00:00 2010 /srv/bags/bag1/data/b 1
"] /\
  exit_status w = 0.
Proof.
  intros bucket w.
  assert (Hwf : Forall well_formed bucket).
  { constructor; [right; reflexivity|].
    constructor; [left; reflexivity|]. constructor. }
  split; [exact Hwf|].
  destruct (worker_attempts_every_item (sample_env [] 1 None)
              "/srv/bags/bag1" 0 bucket Hwf)
    as (Hspawns & Hlog & _ & Hexit & _).
  split; [|split; [|exact Hexit]].
  - fold w in Hspawns. rewrite Hspawns. reflexivity.
  - fold w in Hlog. rewrite Hlog. reflexivity.
Defined.

(** A prefix without a colon is a prefix of a URL exactly when it is one
    of the URL's scheme. *)
Lemma prefix_of_scheme (p url : string) :
  has_colon p = false ->
  String.prefix p url = String.prefix p (url_scheme url).
Proof.
  revert url. induction p as [|a p IH]; intros url Hp.
  { by destruct url as [|b url]; cbn; [|destruct (Ascii.eqb b ":")]. }
  cbn [has_colon] in Hp. apply orb_false_iff in Hp as [Ha Hp].
  destruct url as [|b url]; [done|].
  cbn [url_scheme String.prefix].
  destruct (Ascii.eqb b ":") eqn:Hb.
  - apply Ascii.eqb_eq in Hb as ->. cbn [String.prefix].
    destruct (ascii_dec a ":") as [->|_]; [|done].
    by rewrite Ascii.eqb_refl in Ha.
  - cbn [String.prefix]. destruct (ascii_dec a b); [by apply IH|done].
Qed.

(** C4 (amended).  The worker gives an item to [rsync -ar url path] when
    its URL begins with the five characters [rsync], that is, when the
    scheme of the URL begins with them, as the rsync scheme does; it gives
    every other item to [wget -q -O path url]; the exit code of the
    process is returned as it is and is written in decimal at the end of
    the item's log line. *)
Theorem transfer_selected_by_prefix (env : Env) (package_directory : string)
    (i j : nat) (items : list string) :
  well_formed items ->
  let url := item_url items in
  let path := path_join package_directory (item_filename items) in
  let cmd :=
    if String.prefix "rsync" (url_scheme url)
    then ("rsync", ["rsync"; "-ar"; url; path])
    else ("wget", ["wget"; "-q"; "-O"; path; url]) in
  String.prefix "rsync" url = String.prefix "rsync" (url_scheme url) /\
  (url_scheme url = "rsync" -> cmd = ("rsync", ["rsync"; "-ar"; url; path])) /\
  spawns (events_of (retrieve_item env package_directory i j items)) =
    [cmd] /\
  result_of (spawnlp env i j cmd) = Ok (os_spawnlp env i j cmd.1 cmd.2) /\
  log_lines (events_of (retrieve_item env package_directory i j items)) =
    [time_asctime env i j +:+ " " +:+ path +:+ " " +:+
     str_of_int (os_spawnlp env i j cmd.1 cmd.2) +:+ "
"].
Proof.
  intros Hwf url path cmd.
  assert (Hprefix : String.prefix "rsync" url =
                    String.prefix "rsync" (url_scheme url))
    by (by apply prefix_of_scheme).
  assert (Hcmd : transfer_command url path = cmd).
  { unfold transfer_command, startswith, cmd. by rewrite Hprefix. }
  split; [exact Hprefix|]. split.
  { intros Hscheme. unfold cmd. by rewrite Hscheme. }
  rewrite (retrieve_item_wf _ _ _ _ _ Hwf).
  unfold item_events, item_log, item_command. fold url path.
  rewrite Hcmd. split; [|split; [done|done]].
  cbn. by destruct cmd.
Qed.

Lemma transfer_selected_by_prefix_witness :
  let env := sample_env [] 23 None in
  let run items := events_of (retrieve_item env "/srv/bags/bag1" 0 0 items) in
  well_formed ["rsync://host/mod/a"; "10"; "data/a"] /\
  well_formed ["ftp://host/b"; "data/b"] /\
  spawns (run ["rsync://host/mod/a"; "10"; "data/a"]) =
    [("rsync", ["rsync"; "-ar"; "rsync://host/mod/a";
                "/srv/bags/bag1/data/a"])] /\
  spawns (run ["ftp://host/b"; "data/b"]) =
    [("wget", ["wget"; "-q"; "-O"; "/srv/bags/bag1/data/b";
               "ftp://host/b"])] /\
  log_lines (run ["ftp://host/b"; "data/b"]) =
    ["Fri Jan  1 00:00:00 2010 /srv/bags/bag1/data/b 23
"].
Proof.
  intros env run.
  assert (H1 : well_formed ["rsync://host/mod/a"; "10"; "data/a"])
    by (right; reflexivity).
  assert (H2 : well_formed ["ftp://host/b"; "data/b"])
    by (left; reflexivity).
  split; [exact H1|]. split; [exact H2|].
  destruct (transfer_selected_by_prefix env "/srv/bags/bag1" 0 0 _ H1)
    as (_ & _ & Hs1 & _ & _).
  destruct (transfer_selected_by_prefix env "/srv/bags/bag1" 0 0 _ H2)
    as (_ & _ & Hs2 & _ & Hl2).
  unfold run. rewrite Hs1, Hs2, Hl2. repeat split; reflexivity.
Defined.

(** * The claims about malformed lines and about the log handle *)

Lemma setup_of_parent_calls env options manifest order lines :
  file_manifest options = Some manifest ->
  retrieval_order options = Some order ->
  1 <= num_processes options ->
  parent_calls_succeed env options manifest order ->
  file_readlines env order = Ok lines ->
  exists bs,
    setup_succeeds env options manifest order lines bs /\
    dealt (Z.to_nat (num_processes options)) (retrieval_item_of <$> lines) bs.
Proof.
  intros Hm Hr Hn (Hmk & Hc1 & Hc2 & _ & Hopen & _) Hread.
  destruct (distribute_dealt _ lines Hn) as (bs & Hdist & Hd).
  exists bs. split; [|done]. by repeat split.
Qed.

(** C3 (amended).  Reading the retrieval order accepts every line whatever
    its number of tokens and puts its tuple in a bucket: the tuple of line
    [k] is at position [k / n] of bucket [k mod n].  The worker takes a
    tuple of 2 tokens as url and file name and a tuple of 3 tokens as url,
    size and file name; at a tuple of any other length, the first such in
    its bucket, the worker of that bucket raises [ValueError]: it has then
    retrieved and logged the items before that tuple in its bucket,
    attempts none after it, and ends with exit status 1. *)
Theorem malformed_tuple_stops_its_worker (env : Env) (options : Options)
    (manifest order : string) (lines : list string) (k : nat)
    (line : string) :
  file_manifest options = Some manifest ->
  retrieval_order options = Some order ->
  1 <= num_processes options ->
  parent_calls_succeed env options manifest order ->
  file_readlines env order = Ok lines ->
  lines !! k = Some line ->
  ~ well_formed (retrieval_item_of line) ->
  (forall k' line',
     (k' < k)%nat ->
     (k' mod Z.to_nat (num_processes options) =
      k mod Z.to_nat (num_processes options))%nat ->
     lines !! k' = Some line' -> well_formed (retrieval_item_of line')) ->
  let N := Z.to_nat (num_processes options) in
  let dir := package_directory_of env options in
  let j := (k mod N)%nat in
  let q := (k / N)%nat in
  exists bs b,
    distribute (num_processes options) lines = Ok bs /\
    bs !! j = Some b /\
    b !! q = Some (retrieval_item_of line) /\
    url_and_filename (retrieval_item_of line) = Raise ValueError /\
    children_of (main env options) !! j =
      Some (EPrint (working_on (length b) j) ::
            bucket_events env dir j 0 (take q b), 1) /\
    log_lines (bucket_events env dir j 0 (take q b)) =
      imap (item_log env dir j) (take q b) /\
    length (take q b) = q /\
    (forall url filename,
       url_and_filename [url; filename] = Ok (url, filename)) /\
    (forall url size filename,
       url_and_filename [url; size; filename] = Ok (url, filename)).
Proof.
  intros Hm Hr Hn Hcalls Hread Hk Hbad Hbefore N dir j q.
  destruct (setup_of_parent_calls _ _ _ _ _ Hm Hr Hn Hcalls Hread)
    as (bs & Hsetup & Hd).
  fold N in Hd.
  assert (HN : (0 < N)%nat) by (unfold N; lia).
  pose proof Hd as (_ & Hlook & _).
  destruct (dealt_position N _ bs k (retrieval_item_of line) HN Hd)
    as (b & Hb & Hq).
  { by rewrite list_lookup_fmap, Hk. }
  fold j in Hb. fold q in Hq.
  pose proof (Nat.div_mod_eq k N) as Hkq. fold j q in Hkq.
  assert (Hpre : Forall well_formed (take q b)).
  { apply Forall_lookup_2. intros r x Hx.
    apply lookup_take_Some in Hx as [Hx Hr'].
    rewrite (Hlook _ _ Hb), list_lookup_fmap in Hx.
    destruct (lines !! (r * N + j)%nat) as [line'|] eqn:Hline'; [|done].
    injection Hx as <-. apply (Hbefore (r * N + j)%nat); [nia| |done].
    rewrite (Nat.add_comm (r * N) j), Nat.Div0.mod_add.
    unfold j. by rewrite Nat.Div0.mod_mod. }
  assert (Hsplit : b = take q b ++ retrieval_item_of line :: drop (S q) b).
  { symmetry. by apply take_drop_middle. }
  assert (Hfork : forall i, exists pid, os_fork env i = Ok pid)
    by apply Hcalls.
  exists bs, b. split; [apply Hsetup|]. split; [done|]. split; [done|].
  split; [by apply url_and_filename_malformed|]. split.
  { rewrite (main_succeeds _ _ _ _ _ _ Hsetup Hfork).
    unfold children_of. cbn [fst snd]. rewrite list_lookup_imap, Hb.
    cbn [fmap option_fmap option_map]. f_equal. fold dir.
    rewrite Hsplit at 1. unfold worker.
    rewrite (retrieve_items_malformed _ _ _ _ _ _ _ Hpre Hbad).
    by rewrite <- Hsplit. }
  split.
  { rewrite log_lines_bucket_events. apply imap_ext. by intros. }
  split; [|done]. apply length_take_le.
  apply lookup_lt_Some in Hq. lia.
Qed.

Lemma malformed_tuple_stops_its_worker_witness :
  let lines := ["http://host/a data/a
"; "orphan
"; "ftp://host/c data/c
"] in
  let env := sample_env lines 0 None in
  1 <= num_processes (sample_options 1) /\
  parent_calls_succeed env (sample_options 1) "manifest-md5.txt" "fetch.txt" /\
  lines !! 1%nat = Some "orphan
" /\
  ~ well_formed (retrieval_item_of "orphan
") /\
  children_of (main env (sample_options 1)) !! 0%nat =
    Some ([EPrint "working on 3 items in list 0";
           EMakedirs "/srv/bags/bag1/data";
           ESpawn "wget" ["wget"; "-q"; "-O"; "/srv/bags/bag1/data/a";
                          "http://host/a"];
           ELogWrite "Fri Jan  1 00:00:00 2010 /srv/bags/bag1/data/a 0
"], 1).
Proof.
  intros lines env.
  assert (Hn : 1 <= num_processes (sample_options 1)) by (simpl; lia).
  assert (Hcalls : parent_calls_succeed env (sample_options 1)
                     "manifest-md5.txt" "fetch.txt").
  { repeat split; try reflexivity; [by eexists|intros i; by eexists]. }
  assert (Hbad : ~ well_formed (retrieval_item_of "orphan
")) by (intros [H|H]; discriminate H).
  split; [exact Hn|]. split; [exact Hcalls|]. split; [reflexivity|].
  split; [exact Hbad|].
  destruct (malformed_tuple_stops_its_worker env (sample_options 1)
              "manifest-md5.txt" "fetch.txt" lines 1 "orphan
" eq_refl eq_refl Hn Hcalls eq_refl eq_refl Hbad)
    as (bs & b & Hdist & Hb & _ & _ & Hchild & _).
  - intros k' line' Hk' _ Hline'.
    destruct k' as [|k']; [|lia].
    injection Hline' as <-. left. reflexivity.
  - injection Hdist as <-. injection Hb as <-. exact Hchild.
Defined.

Lemma opens_log_worker_events (t : list event) :
  Forall (fun e => is_worker_event e = true) t -> opens_log t = [].
Proof.
  induction 1 as [|e t He _ IH]; [done|].
  unfold opens_log in *. csimpl. rewrite IH. by destruct e.
Qed.

Lemma worker_events_general env dir i bucket :
  Forall (fun e => is_worker_event e = true)
         (events_of (worker env dir i bucket)).
Proof.
  unfold worker. apply bind_events_Forall; [by repeat constructor|].
  intros _. apply bind_events_Forall; [|intros _; constructor].
  apply retrieve_items_events.
Qed.

Lemma main_children_are_workers env options :
  Forall (fun p : process => Forall (fun e => is_worker_event e = true) p.1)
         (children_of (main env options)).
Proof.
  unfold main.
  destruct (file_manifest options) as [manifest|]; [|constructor].
  destruct (retrieval_order options) as [order|]; [|constructor].
  unfold retrieve_package.
  repeat (apply bind_children_Forall; [|intros ?]);
    try (by repeat constructor);
    try (by rewrite (proj2 (may_raise_quiet _))).
  - destruct (os_path_isdir env _); [constructor|].
    apply bind_children_Forall; [constructor|].
    intros _. by rewrite (proj2 (may_raise_quiet _)).
  - apply fork_loop_events.
  - rewrite wait_loop_events. constructor.
Qed.

Lemma trace_of_forks (l : list nat) :
  forks (EFork <$> l) = l /\ opens_log (EFork <$> l) = [].
Proof.
  unfold forks, opens_log. induction l as [|i l [IH1 IH2]]; [done|].
  csimpl. by rewrite IH1, IH2.
Qed.

Lemma trace_of_waits env (l : list nat) :
  forks (wait_events env l) = [] /\ opens_log (wait_events env l) = [].
Proof.
  unfold forks, opens_log. induction l as [|i l [IH1 IH2]]; [done|].
  change (wait_events env (i :: l))
    with (EWait i ::
          EPrint (finished_with (os_wait env i).1 (os_wait env i).2) ::
          wait_events env l).
  csimpl. by rewrite IH1, IH2.
Qed.

(** C9 (as stated, refuted).  In the run below the log is opened once, by
    the parent; both workers write a log line and neither of them has
    opened a log: they write through the one handle they inherit from the
    parent, which neither owns alone. *)
Lemma workers_share_the_parents_log :
  let lines := ["http://host/a data/a
"; "ftp://host/b data/b
"] in
  let run := main (sample_env lines 0 None) (sample_options 2) in
  opens_log (events_of run) = ["/srv/bags/bag1/retrieval.log"] /\
  (fun p : process => log_lines p.1) <$> children_of run =
    [["Fri Jan  1 00:00:00 2010 /srv/bags/bag1/data/a 0
"]; ["Fri Jan  1 00:00:00 2010 /srv/bags/bag1/data/b 0
"]] /\
  (fun p : process => opens_log p.1) <$> children_of run = [[]; []].
Proof. repeat split; reflexivity. Qed.

(** C9 (amended).  No worker has a log handle of its own: in every run a
    worker opens no log and does nothing but print, make directories, run
    transfers and write log lines.  When the set-up and every fork
    succeed, the log is opened exactly once, as [retrieval.log] in the
    package directory, by the parent and before the first fork, and every
    worker writes the log lines of its bucket through that handle. *)
Theorem log_opened_once_by_parent (env : Env) (options : Options) :
  Forall (fun p : process =>
            opens_log p.1 = [] /\
            Forall (fun e => is_worker_event e = true) p.1)
         (children_of (main env options)) /\
  (forall manifest order lines bs,
     setup_succeeds env options manifest order lines bs ->
     (forall i, exists pid, os_fork env i = Ok pid) ->
     let dir := package_directory_of env options in
     let log := path_join dir "retrieval.log" in
     opens_log (events_of (main env options)) = [log] /\
     (exists pre post,
        events_of (main env options) = pre ++ EOpenLog log :: post /\
        opens_log pre = [] /\ forks pre = [] /\
        opens_log post = [] /\ forks post = seq 0 (length bs)) /\
     (forall i b, bs !! i = Some b -> Forall well_formed b ->
        exists t,
          children_of (main env options) !! i = Some (t, 0) /\
          opens_log t = [] /\
          log_lines t = imap (item_log env dir i) b)).
Proof.
  split.
  { eapply Forall_impl; [apply main_children_are_workers|].
    intros p Hp. split; [by apply opens_log_worker_events|done]. }
  intros manifest order lines bs Hsetup Hfork dir log.
  rewrite (main_succeeds _ _ _ _ _ _ Hsetup Hfork). fold dir.
  unfold events_of, children_of. cbn [fst snd].
  set (pre := (if os_path_isdir env dir then [] else [EMkdir dir]) ++
              [ECopy manifest dir; ECopy order dir; EReadlines order]).
  set (post := (EFork <$> seq 0 (length bs)) ++
               wait_events env (seq 0 (length bs))).
  assert (Hev : setup_events env options manifest order ++ post =
                pre ++ EOpenLog log :: post).
  { unfold setup_events, pre. fold dir log. by rewrite <- !app_assoc. }
  assert (Hpre : opens_log pre = [] /\ forks pre = []).
  { unfold pre. by destruct (os_path_isdir env dir). }
  assert (Hpost : opens_log post = [] /\ forks post = seq 0 (length bs)).
  { unfold post, opens_log, forks. rewrite !omap_app.
    fold (opens_log (EFork <$> seq 0 (length bs))).
    fold (forks (EFork <$> seq 0 (length bs))).
    fold (opens_log (wait_events env (seq 0 (length bs)))).
    fold (forks (wait_events env (seq 0 (length bs)))).
    rewrite (proj1 (trace_of_forks _)), (proj2 (trace_of_forks _)).
    rewrite (proj1 (trace_of_waits _ _)), (proj2 (trace_of_waits _ _)).
    by rewrite !app_nil_r. }
  split; [|split].
  - rewrite Hev. unfold opens_log in *. rewrite omap_app. csimpl.
    by rewrite (proj1 Hpre), (proj1 Hpost).
  - exists pre, post. split; [exact Hev|]. by destruct Hpre, Hpost.
  - intros i b Hb Hwf. eexists. rewrite list_lookup_imap, Hb.
    cbn [fmap option_fmap option_map].
    rewrite (worker_process_wf _ _ _ _ Hwf). split; [reflexivity|].
    split.
    + apply opens_log_worker_events.
      pose proof (worker_events_general env dir i b) as Hw.
      unfold worker in Hw. rewrite (retrieve_items_wf _ _ _ _ _ Hwf) in Hw.
      cbn in Hw. by rewrite app_nil_r in Hw.
    + cbn. fold (log_lines (bucket_events env dir i 0 b)).
      rewrite log_lines_bucket_events. apply imap_ext. by intros.
Qed.

Lemma log_opened_once_by_parent_witness :
  let lines := ["http://host/a data/a
"; "ftp://host/b data/b
"] in
  let env := sample_env lines 0 None in
  let run := main env (sample_options 2) in
  setup_succeeds env (sample_options 2) "manifest-md5.txt" "fetch.txt" lines
    [[["http://host/a"; "data/a"]]; [["ftp://host/b"; "data/b"]]] /\
  opens_log (events_of run) = ["/srv/bags/bag1/retrieval.log"] /\
  Forall (fun p : process => opens_log p.1 = []) (children_of run).
Proof.
  intros lines env run.
  assert (Hsetup : setup_succeeds env (sample_options 2) "manifest-md5.txt"
                     "fetch.txt" lines
                     [[["http://host/a"; "data/a"]];
                      [["ftp://host/b"; "data/b"]]]).
  { repeat split; reflexivity. }
  split; [exact Hsetup|].
  destruct (log_opened_once_by_parent env (sample_options 2))
    as [Hworkers Hrun].
  destruct (Hrun _ _ _ _ Hsetup) as (Hopen & _); [intros i; by eexists|].
  split; [exact Hopen|].
  eapply Forall_impl; [exact Hworkers|]. by intros p [Hp _].
Defined.
